(** * Risk scoring and tax estimation of KLTN_WEB_DONE (src/utils/tax.py,
    src/utils/scoring.py), embedded in Rocq.

    Python floats are modelled by real numbers (no rounding).  The tax
    functions are modelled on the inputs whose [float(x)] is finite or
    raises; the segment areas of [non_agri_land_tax_vnd] are modelled a
    second time over IEEE binary64 floats (module [TaxFloat]), NaN and the
    infinities included.  The data-frame code keeps NaN and the infinities
    explicitly (type [F]). *)

From Stdlib Require Import Reals Lra Lia Bool List String Ascii NArith.
From Stdlib Require Import Sorting.Permutation Sorting.Sorted.
From Stdlib Require Floats.SpecFloat.
Import ListNotations.
Open Scope R_scope.

(** ** Python helpers *)

(** Python's [max(a, b)]: the first argument unless the second is larger. *)
Definition py_max (a b : R) : R := if Rlt_dec a b then b else a.

(** Python's [min(a, b)]: the first argument unless the second is smaller. *)
Definition py_min (a b : R) : R := if Rlt_dec b a then b else a.

Module Tax.

(** An argument of the tax functions, seen through Python's [float(x)]:
    either [float(x)] returns a finite value, or it raises.  Arguments with
    a NaN or infinite [float(x)] ([float("nan")], [float("inf")],
    [float("1e999")]) are outside this real-number model; see [TaxFloat]. *)
Inductive pyobj :=
| PyFloatable (r : R)
| PyUnfloatable.

(** [_to_float(x, default=0.0)] *)
Definition _to_float (x : pyobj) (default : R) : R :=
  match x with
  | PyFloatable r => r
  | PyUnfloatable => default
  end.

Definition to_float0 (x : pyobj) : R := _to_float x 0.

Record reg_fee_result := {
  rf_base_value_vnd : R;
  rf_fee_vnd : R;
  rf_rate : R;
  rf_exempt : bool
}.

(** [registration_fee_land_vnd(area_m2, gov_price_mil_m2, rate, exempt)] *)
Definition registration_fee_land_vnd (area_m2 gov_price_mil_m2 rate : pyobj)
    (exempt : bool) : reg_fee_result :=
  let area := py_max (to_float0 area_m2) 0 in
  let gov := py_max (to_float0 gov_price_mil_m2) 0 in
  let base_value_vnd := area * gov * 1000000 in
  let fee_vnd := if exempt then 0 else base_value_vnd * to_float0 rate in
  {| rf_base_value_vnd := base_value_vnd;
     rf_fee_vnd := fee_vnd;
     rf_rate := to_float0 rate;
     rf_exempt := exempt |}.

Record pit_result := {
  pit_tax_base_vnd : R;
  pit_pit_vnd : R;
  pit_rate : R;
  pit_exempt : bool
}.

(** [pit_transfer_tax_vnd(transfer_price_billion_vnd, rate, exempt)] *)
Definition pit_transfer_tax_vnd (transfer_price_billion_vnd rate : pyobj)
    (exempt : bool) : pit_result :=
  let base_vnd := py_max (to_float0 transfer_price_billion_vnd) 0 * 1000000000 in
  let pit_vnd := if exempt then 0 else base_vnd * to_float0 rate in
  {| pit_tax_base_vnd := base_vnd;
     pit_pit_vnd := pit_vnd;
     pit_rate := to_float0 rate;
     pit_exempt := exempt |}.

(** The [relief] argument: [None] is Python's [None]. *)
Definition relief_or_none (relief : option string) : string :=
  match relief with
  | None => "none"%string
  | Some EmptyString => "none"%string
  | Some s => s
  end.

Record segments := {
  within_quota_m2 : R;
  over_quota_to_3x_m2 : R;
  over_3x_quota_m2 : R
}.

Record tax_amounts := {
  t_within_quota : R;
  t_over_quota_to_3x : R;
  t_over_3x_quota : R;
  t_total : R
}.

Record land_tax_result := {
  lt_area_m2 : R;
  lt_quota_m2 : R;
  lt_gov_price_mil_m2 : R;
  lt_segments : segments;
  lt_r1 : R; lt_r2 : R; lt_r3 : R;
  lt_tax_vnd : tax_amounts;
  lt_tax_vnd_before_relief : tax_amounts;
  lt_relief : string
}.

Definition r1 : R := 3 / 10000.
Definition r2 : R := 7 / 10000.
Definition r3 : R := 15 / 10000.

(** [non_agri_land_tax_vnd(area_m2, gov_price_mil_m2, quota_m2, relief)] *)
Definition non_agri_land_tax_vnd (area_m2 gov_price_mil_m2 quota_m2 : pyobj)
    (relief0 : option string) : land_tax_result :=
  let area := py_max (to_float0 area_m2) 0 in
  let gov := py_max (to_float0 gov_price_mil_m2) 0 in
  let quota := py_max (to_float0 quota_m2) 0 in
  (* segment areas *)
  let '(a1, a2, a3) :=
    if Rlt_dec 0 quota then
      (py_min area quota,
       py_min (py_max (area - quota) 0) (2 * quota),
       py_max (area - 3 * quota) 0)
    else (area, 0, 0) in
  (* segment tax (VND) *)
  let tax1 := a1 * gov * 1000000 * r1 in
  let tax2 := a2 * gov * 1000000 * r2 in
  let tax3 := a3 * gov * 1000000 * r3 in
  let total_before_relief := tax1 + tax2 + tax3 in
  (* relief *)
  let relief := relief_or_none relief0 in
  let '(tax1_after, tax2_after, tax3_after) :=
    if string_dec relief "exempt_within_quota"%string then (0, tax2, tax3)
    else if string_dec relief "reduce50_within_quota"%string then (tax1 * (1/2), tax2, tax3)
    else if string_dec relief "exempt_all"%string then (0, 0, 0)
    else if string_dec relief "reduce50_all"%string then (tax1 * (1/2), tax2 * (1/2), tax3 * (1/2))
    else (tax1, tax2, tax3) in
  let total_after_relief := tax1_after + tax2_after + tax3_after in
  {| lt_area_m2 := area; lt_quota_m2 := quota; lt_gov_price_mil_m2 := gov;
     lt_segments := {| within_quota_m2 := a1; over_quota_to_3x_m2 := a2;
                       over_3x_quota_m2 := a3 |};
     lt_r1 := r1; lt_r2 := r2; lt_r3 := r3;
     lt_tax_vnd := {| t_within_quota := tax1_after; t_over_quota_to_3x := tax2_after;
                      t_over_3x_quota := tax3_after; t_total := total_after_relief |};
     lt_tax_vnd_before_relief := {| t_within_quota := tax1; t_over_quota_to_3x := tax2;
                      t_over_3x_quota := tax3; t_total := total_before_relief |};
     lt_relief := relief |}.

End Tax.

Module Scoring.
Local Open Scope bool_scope.

(** ** Python floats in data-frame columns: finite, NaN or infinite. *)
Inductive F :=
| Fin (r : R)
| NaN
| PInf
| NInf.

Definition isfinite (x : F) : bool :=
  match x with Fin _ => true | _ => false end.

(** [x <= y] on floats (false as soon as one side is NaN). *)
Definition fle (x y : F) : bool :=
  match x, y with
  | NaN, _ | _, NaN => false
  | NInf, _ | _, PInf => true
  | PInf, _ | _, NInf => false
  | Fin a, Fin b => if Rle_dec a b then true else false
  end.

(** [x > y] on floats. *)
Definition fgt (x y : F) : bool :=
  match x, y with
  | NaN, _ | _, NaN => false
  | PInf, PInf | NInf, NInf => false
  | PInf, _ | _, NInf => true
  | NInf, _ | _, PInf => false
  | Fin a, Fin b => if Rlt_dec b a then true else false
  end.

(** IEEE division, signed zeros left out. *)
Definition fdiv (x y : F) : F :=
  match x, y with
  | NaN, _ | _, NaN => NaN
  | Fin a, Fin b =>
      if Req_EM_T b 0 then
        (if Rlt_dec 0 a then PInf else if Rlt_dec a 0 then NInf else NaN)
      else Fin (a / b)
  | Fin _, PInf | Fin _, NInf => Fin 0
  | PInf, Fin b => if Rlt_dec b 0 then NInf else PInf
  | NInf, Fin b => if Rlt_dec b 0 then PInf else NInf
  | PInf, PInf | PInf, NInf | NInf, PInf | NInf, NInf => NaN
  end.

(** [np.clip(x, lo, hi)] on a real. *)
Definition clip (x lo hi : R) : R := py_min (py_max x lo) hi.

(** [Series.clip(0.0, 1.0)]: NaN stays NaN. *)
Definition fclip01 (x : F) : F :=
  match x with
  | Fin r => Fin (clip r 0 1)
  | PInf => Fin 1
  | NInf => Fin 0
  | NaN => NaN
  end.

(** [Series.max(skipna=True)]: NaN when every value is NaN. *)
Fixpoint fmax_skipna (xs : list F) : F :=
  match xs with
  | [] => NaN
  | x :: xs' =>
      let m := fmax_skipna xs' in
      match x with
      | NaN => m
      | _ => match m with NaN => x | _ => if fgt m x then m else x end
      end
  end.

(** [Series.replace(0, np.nan)] on one value. *)
Definition replace0 (x : F) : F :=
  match x with
  | Fin r => if Req_EM_T r 0 then NaN else x
  | _ => x
  end.

(** ** Text as Unicode code points *)

Definition text := list N.

(** UTF-8 decoding of the pattern literals of the source. *)
Fixpoint utf8 (s : string) : text :=
  match s with
  | EmptyString => []
  | String a s1 =>
      let n := N_of_ascii a in
      if (n <? 128)%N then n :: utf8 s1
      else if (n <? 224)%N then
        match s1 with
        | String b s2 => ((n - 192) * 64 + (N_of_ascii b - 128))%N :: utf8 s2
        | EmptyString => []
        end
      else
        match s1 with
        | String b (String c s3) =>
            ((n - 224) * 4096 + (N_of_ascii b - 128) * 64 + (N_of_ascii c - 128))%N
              :: utf8 s3
        | _ => []
        end
  end.

(** Python's [\s] on str patterns: the characters [str.isspace] accepts. *)
Definition is_space (c : N) : bool :=
  ((9 <=? c) && (c <=? 13))%N || ((28 <=? c) && (c <=? 32))%N
  || (c =? 133)%N || (c =? 160)%N || (c =? 5760)%N
  || ((8192 <=? c) && (c <=? 8202))%N || (c =? 8232)%N || (c =? 8233)%N
  || (c =? 8239)%N || (c =? 8287)%N || (c =? 12288)%N.

(** The regular expressions of scoring.py use literal characters and
    [\s*] only. *)
Inductive tok :=
| Lit (c : N)
| WS.

Fixpoint parse_pat (l : text) : list tok :=
  match l with
  | 92%N :: 115%N :: 42%N :: rest => WS :: parse_pat rest
  | c :: rest => Lit c :: parse_pat rest
  | [] => []
  end.

Definition pat (s : string) : list tok := parse_pat (utf8 s).

(** The pattern matches a prefix of the text ([\s*] with backtracking). *)
Fixpoint match_prefix (p : list tok) (s : text) : bool :=
  match p with
  | [] => true
  | Lit c :: p' =>
      match s with
      | c' :: s' => (c =? c')%N && match_prefix p' s'
      | [] => false
      end
  | WS :: p' =>
      (fix go (s : text) : bool :=
         match_prefix p' s
         || match s with
            | c :: s' => is_space c && go s'
            | [] => false
            end) s
  end.

(** [re.search(p, t) is not None] *)
Fixpoint search (p : list tok) (s : text) : bool :=
  match_prefix p s || match s with [] => false | _ :: s' => search p s' end.

(** [any(re.search(p, t) for p in ps)] *)
Definition any_search (ps : list (list tok)) (t : text) : bool :=
  existsb (fun p => search p t) ps.

(** ** Text-based risk components *)

Definition LEGAL_RISK_PATTERNS : list (list tok) := map pat [
  "vi\s*bằng"; "giấy\s*tay"; "giay\s*tay"; "sổ\s*chung"; "so\s*chung";
  "chung\s*sổ"; "chưa\s*có\s*sổ"; "chua\s*co\s*so"; "chờ\s*sổ"; "cho\s*so";
  "hđmb"; "hợp\s*đồng\s*mua\s*bán"; "hop\s*dong\s*mua\s*ban"; "ủy\s*quyền";
  "uỷ\s*quyền"; "uy\s*quyen"; "góp\s*vốn"; "gop\s*von"; "giấy\s*viết\s*tay";
  "giay\s*viet\s*tay"]%string.

Definition LEGAL_CLEAR_PATTERNS : list (list tok) := map pat [
  "sổ\s*hồng"; "sổ\s*đỏ"; "so\s*hong"; "so\s*do"; "sổ\s*riêng"; "so\s*rieng";
  "chính\s*chủ"; "chinh\s*chu"; "pháp\s*lý\s*chuẩn"; "phap\s*ly\s*chuan";
  "hoàn\s*công"; "hoan\s*cong"; "công\s*chứng"; "cong\s*chung"; "sang\s*tên";
  "sang\s*ten"; "đăng\s*bộ"; "dang\s*bo"]%string.

Definition PLANNING_KEYWORDS : list (list tok) := map pat [
  "quy\s*hoạch"; "quy\s*hoach"; "lộ\s*giới"; "lo\s*gioi"; "tranh\s*chấp";
  "tranh\s*chap"; "giải\s*tỏa"; "giai\s*toa"; "treo"]%string.

Definition PLANNING_SAFE_PATTERNS : list (list tok) := map pat [
  "không\s*dính\s*quy\s*hoạch"; "khong\s*dinh\s*quy\s*hoach";
  "không\s*nằm\s*trong\s*quy\s*hoạch"; "khong\s*nam\s*trong\s*quy\s*hoach";
  "không\s*quy\s*hoạch"; "khong\s*quy\s*hoach"; "không\s*lộ\s*giới";
  "khong\s*lo\s*gioi"; "không\s*tranh\s*chấp"; "khong\s*tranh\s*chap";
  "không\s*bị\s*lộ\s*giới"; "khong\s*bi\s*lo\s*gioi"; "không\s*bị\s*quy\s*hoạch";
  "khong\s*bi\s*quy\s*hoach"; "có\s*giấy\s*xác\s*nhận\s*quy\s*hoạch";
  "co\s*giay\s*xac\s*nhan\s*quy\s*hoach"; "quy\s*hoạch\s*ổn\s*định";
  "quy\s*hoach\s*on\s*dinh"]%string.

Definition PLANNING_RISK_PATTERNS : list (list tok) := map pat [
  "dính\s*quy\s*hoạch"; "dinh\s*quy\s*hoach"; "nằm\s*trong\s*quy\s*hoạch";
  "nam\s*trong\s*quy\s*hoach"; "bị\s*quy\s*hoạch"; "bi\s*quy\s*hoach";
  "quy\s*hoạch\s*treo"; "quy\s*hoach\s*treo"; "đang\s*tranh\s*chấp";
  "dang\s*tranh\s*chap"; "tranh\s*chấp"; "tranh\s*chap"; "lộ\s*giới";
  "lo\s*gioi"; "giải\s*tỏa"; "giai\s*toa"]%string.

(** A data-frame cell: a float (possibly NaN or infinite), a [str], or
    [None]. *)
Inductive cell :=
| CNum (x : F)
| CStr (s : text)
| CNone.

Section Model.

(** Python's [str.lower], on code points. *)
Variable lower : text -> text.

(** Python's [float(s)] on a [str]: its value, or [None] when it raises
    [ValueError]. *)
Variable str_to_float : text -> option F.

(** [_to_text(x)]: [x.lower()] for a [str], the empty text otherwise. *)
Definition _to_text (x : cell) : text :=
  match x with
  | CStr s => lower s
  | _ => []
  end.

(** [legal_risk_score(listing_text)] *)
Definition legal_risk_score (listing_text : cell) : R :=
  let t := _to_text listing_text in
  if any_search LEGAL_RISK_PATTERNS t then 1
  else if any_search LEGAL_CLEAR_PATTERNS t then 0
  else 1 / 2.

(** [planning_risk_score(listing_text)] *)
Definition planning_risk_score (listing_text : cell) : R :=
  let t := _to_text listing_text in
  if negb (any_search PLANNING_KEYWORDS t) then 1 / 2
  else if any_search PLANNING_SAFE_PATTERNS t then 0
  else if any_search PLANNING_RISK_PATTERNS t then 1
  else 1 / 2.

(** ** Price discrepancy *)

(** [normalize_log_ratio(ratio, cap)]; [None] in the argument is Python's
    [None], [None] in the result is an exception ([math.log] of a
    non-positive cap, or division by [log(1.0) = 0]). *)
Definition normalize_log_ratio (ratio : option F) (cap : R) : option F :=
  match ratio with
  | Some (Fin r) =>
      if Rle_dec r 0 then Some NaN
      else
        let r' := py_max r (1 / 1000000000) in
        if Rle_dec cap 0 then None
        else if Req_EM_T (ln cap) 0 then None
        else Some (Fin (clip (ln r' / ln cap) 0 1))
  | _ => Some NaN
  end.

(** ** Data frames *)

(** A row maps every column name to its cell. *)
Definition row := string -> cell.

Record frame := {
  columns : list string;
  rows : list row
}.

Definition upd (r : row) (c : string) (v : cell) : row :=
  fun k => if string_dec k c then v else r k.

Definition has_col (fr : frame) (c : string) : bool :=
  if in_dec string_dec c (columns fr) then true else false.

Definition add_colname (cols : list string) (c : string) : list string :=
  if in_dec string_dec c cols then cols else cols ++ [c].

(** [out[c] = values], the value of each row computed from the row. *)
Definition set_col (fr : frame) (c : string) (f : row -> cell) : frame :=
  {| columns := add_colname (columns fr) c;
     rows := map (fun r => upd r c (f r)) (rows fr) |}.

Fixpoint mapM {A B : Type} (f : A -> option B) (l : list A) : option (list B) :=
  match l with
  | [] => Some []
  | x :: l' =>
      match f x with
      | Some y => match mapM f l' with Some ys => Some (y :: ys) | None => None end
      | None => None
      end
  end.

Local Notation "'let?' x := m 'in' k" :=
  (match m with Some x => k | None => None end)
  (at level 200, x ident, m at level 100, k at level 200).

(** [out[c] = values] where computing a value may raise. *)
Definition set_col_opt (fr : frame) (c : string) (f : row -> option cell)
    : option frame :=
  let? rs := mapM (fun r => option_map (upd r c) (f r)) (rows fr) in
  Some {| columns := add_colname (columns fr) c; rows := rs |}.

(** [astype(float)] on one cell. *)
Definition cell_to_float (x : cell) : option F :=
  match x with
  | CNum v => Some v
  | CNone => Some NaN
  | CStr s => str_to_float s
  end.

Record RiskConfig := {
  text_col : string;
  fake_prob_col : string;
  unit_price_col : string;
  gov_price_col : string;
  cap_ratio : R
}.

Definition default_config : RiskConfig := {|
  text_col := "Listing Text";
  fake_prob_col := "Độ tin cậy tin ảo (%)";
  unit_price_col := "Unit Price (million VND/m²)";
  gov_price_col := "Gov Price 2026 Corrected (million VND/m²)";
  cap_ratio := 10 |}%string.

(** [add_risk_components(df, cfg)] *)
Definition add_risk_components (cfg : RiskConfig) (df : frame) : option frame :=
  let out := df in
  (* text-based components *)
  let out :=
    if has_col out (text_col cfg) then
      let out := set_col out "S_legal" (fun r => CNum (Fin (legal_risk_score (r (text_col cfg))))) in
      set_col out "S_plan" (fun r => CNum (Fin (planning_risk_score (r (text_col cfg)))))
    else set_col (set_col out "S_legal" (fun _ => CNum NaN)) "S_plan" (fun _ => CNum NaN) in
  (* fake probability *)
  let? out :=
    if has_col out (fake_prob_col cfg) then
      let? fake := mapM (fun r => cell_to_float (r (fake_prob_col cfg))) (rows out) in
      let pct := fgt (fmax_skipna fake) (Fin 1) in
      set_col_opt out "S_fake" (fun r =>
        let? x := cell_to_float (r (fake_prob_col cfg)) in
        Some (CNum (fclip01 (if pct then fdiv x (Fin 100) else x))))
    else Some (set_col out "S_fake" (fun _ => CNum NaN)) in
  (* price discrepancy *)
  let? out :=
    if has_col out (unit_price_col cfg) && has_col out (gov_price_col cfg) then
      let? out := set_col_opt out "ListingGap" (fun r =>
        let? unit := cell_to_float (r (unit_price_col cfg)) in
        let? gov := cell_to_float (r (gov_price_col cfg)) in
        Some (CNum (fdiv unit (replace0 gov)))) in
      set_col_opt out "S_price" (fun r =>
        match r "ListingGap"%string with
        | CNum ratio => option_map CNum (normalize_log_ratio (Some ratio) (cap_ratio cfg))
        | _ => None
        end)
    else Some (set_col (set_col out "ListingGap" (fun _ => CNum NaN)) "S_price" (fun _ => CNum NaN)) in
  Some out.

(** ** CRITIC weights *)

Definition rsum (l : list R) : R := fold_right Rplus 0 l.

(** The finite values of a row, when every value is finite. *)
Fixpoint all_finite (xs : list F) : option (list R) :=
  match xs with
  | [] => Some []
  | Fin v :: xs' => option_map (cons v) (all_finite xs')
  | _ :: _ => None
  end.

(** [X.replace([np.inf, -np.inf], np.nan).dropna(how="any")] *)
Fixpoint complete_rows (X : list (list F)) : list (list R) :=
  match X with
  | [] => []
  | xs :: X' =>
      match all_finite xs with
      | Some vs => vs :: complete_rows X'
      | None => complete_rows X'
      end
  end.

Definition column (X : list (list R)) (j : nat) : list R :=
  map (fun vs => nth j vs 0) X.

Definition mean (xs : list R) : R := rsum xs / INR (List.length xs).

(** Deviation of the [j]-th value of a row from the column mean. *)
Definition dev (X : list (list R)) (j : nat) (vs : list R) : R :=
  nth j vs 0 - mean (column X j).

(** Sum of products of deviations of columns [j] and [k]. *)
Definition ssd (X : list (list R)) (j k : nat) : R :=
  rsum (map (fun vs => dev X j vs * dev X k vs) X).

(** [X.std(ddof=0)] of column [j]. *)
Definition stdev (X : list (list R)) (j : nat) : R :=
  sqrt (ssd X j j / INR (List.length X)).

(** [X.corr().fillna(0.0)]: Pearson's coefficient, NaN (hence 0) when
    the divisor is 0. *)
Definition corr (X : list (list R)) (j k : nat) : R :=
  let d := sqrt (ssd X j j * ssd X k k) in
  if Req_EM_T d 0 then 0 else ssd X j k / d.

(** [C[c] = stds[c] * (1.0 - corr[c]).sum()] for the columns [0 .. m-1]. *)
Definition critic_C (Xc : list (list R)) (m : nat) : list R :=
  map (fun j => stdev Xc j * rsum (map (fun k => 1 - corr Xc j k) (seq 0 m))) (seq 0 m).

(** [df[cols].astype(float)], row by row; [None] when it raises. *)
Definition float_matrix (fr : frame) (cols : list string) : option (list (list F)) :=
  mapM (fun r => mapM (fun c => cell_to_float (r c)) cols) (rows fr).

(** A Python dict with string keys as the list of its items in insertion
    order: [d[k] = v] replaces the value of a present key in place and
    appends a new key at the end. *)
Fixpoint dict_set (d : list (string * R)) (k : string) (v : R) : list (string * R) :=
  match d with
  | [] => [(k, v)]
  | (k', v') :: d' => if string_dec k k' then (k', v) :: d' else (k', v') :: dict_set d' k v
  end.

(** [{k: v for (k, v) in items}] *)
Definition dict_of_items (items : list (string * R)) : list (string * R) :=
  fold_left (fun d kv => dict_set d (fst kv) (snd kv)) items [].

(** Some name occurs twice in the list. *)
Fixpoint has_dup (l : list string) : bool :=
  match l with
  | [] => false
  | x :: l' => if in_dec string_dec x l' then true else has_dup l'
  end.

(** [{c: 1.0 / m for c in cols}] with [m = len(cols)]: a repeated name
    keeps a single entry. *)
Definition equal_weights (cols : list string) : list (string * R) :=
  dict_of_items (map (fun c => (c, 1 / INR (List.length cols))) cols).

(** [critic_weights(df, cols)]; the returned dict as the list of its items
    in insertion order; [None] when the code raises: when [astype(float)]
    raises, and when [cols] repeats a name and some row is complete (then
    [stds[c]] is a Series of several values and [float(...)] raises
    TypeError). *)
Definition critic_weights (fr : frame) (cols : list string)
    : option (list (string * R)) :=
  let? X := float_matrix fr cols in
  let Xc := complete_rows X in
  let m := List.length cols in
  (* [X.empty]: no row or no column *)
  if (Nat.eqb (List.length Xc) 0 || Nat.eqb m 0)%bool then Some (equal_weights cols)
  else if has_dup cols then None
  else
    let C := critic_C Xc m in
    let total := rsum C in
    if Rle_dec total 0 then Some (equal_weights cols)
    else Some (dict_of_items (combine cols (map (fun cj => cj / total) C))).

(** ** Composite Risk Score *)

Fixpoint insert (x : R) (l : list R) : list R :=
  match l with
  | [] => [x]
  | y :: l' => if Rle_dec x y then x :: l else y :: insert x l'
  end.

Fixpoint sort (l : list R) : list R :=
  match l with
  | [] => []
  | x :: l' => insert x (sort l')
  end.

(** [Series.quantile(num / den)] with linear interpolation between the
    order statistics at positions [floor(h)] and [floor(h) + 1], where
    [h = (n - 1) * num / den]; NaN on an empty series. *)
Definition quantile (xs : list R) (num den : nat) : F :=
  match sort xs with
  | [] => NaN
  | s =>
      let h := ((List.length s - 1) * num)%nat in
      let i := Nat.div h den in
      let t := INR (Nat.modulo h den) / INR den in
      let a := nth i s 0 in
      let b := nth (S i) s 0 in
      Fin (a + (b - a) * t)
  end.

(** [_level(s)] inside [compute_risk_score] *)
Definition _level (q33 q67 s : F) : string :=
  if negb (isfinite s) then "N/A"
  else if fle s q33 then "Low"
  else if fle s q67 then "Medium"
  else "High".

Definition SCOLS : list string := ["S_legal"; "S_fake"; "S_price"; "S_plan"]%string.

(** [X = out[cols].astype(float).fillna(0.5)] on one cell.  The component
    columns hold only finite numbers and NaN when this runs (they are written
    by [add_risk_components], see [component_cells_finite_or_nan]). *)
Definition fill_half (x : cell) : R :=
  match x with
  | CNum (Fin v) => v
  | _ => 1 / 2
  end.

Fixpoint lookup (c : string) (w : list (string * R)) : option R :=
  match w with
  | [] => None
  | (k, v) :: w' => if string_dec c k then Some v else lookup c w'
  end.

(** [sum(weights[c] * X[c] for c in cols)] on one row. *)
Definition score_of_row (ws : list R) (r : row) : R :=
  rsum (map (fun '(c, wc) => wc * fill_half (r c)) (combine SCOLS ws)).

Definition cell_float (x : cell) : F :=
  match x with CNum v => v | _ => NaN end.

(** [compute_risk_score(df, method, cfg, weights)]; [None] when it raises.
    Supplied [weights] are finite reals here: a NaN or infinite supplied
    weight is outside the model.  The weights the code computes itself
    ([weights=None]) are finite. *)
Definition compute_risk_score (cfg : RiskConfig) (method : text)
    (weights : option (list (string * R))) (df : frame)
    : option (frame * list (string * R)) :=
  let? out := add_risk_components cfg df in
  let cols := SCOLS in
  let? w :=
    match weights with
    | Some w => Some w
    | None =>
        if list_eq_dec N.eq_dec (lower method) (utf8 "equal") then
          Some (map (fun c => (c, 1 / INR (List.length cols))) cols)
        else critic_weights out cols
    end in
  let? ws := mapM (fun c => lookup c w) cols in
  let out := set_col out "Risk Score" (fun r => CNum (Fin (score_of_row ws r))) in
  let scores := map (score_of_row ws) (rows out) in
  let q33 := quantile scores 1 3 in
  let q67 := quantile scores 2 3 in
  let out := set_col out "Risk Level"
               (fun r => CStr (utf8 (_level q33 q67 (cell_float (r "Risk Score"%string))))) in
  let out := set_col out "Risk_Q33" (fun _ => CNum q33) in
  let out := set_col out "Risk_Q67" (fun _ => CNum q67) in
  Some (out, w).

End Model.

(** ** Pattern containment, used to relate the pattern lists *)

Definition tok_eqb (x y : tok) : bool :=
  match x, y with
  | Lit a, Lit b => (a =? b)%N
  | WS, WS => true
  | _, _ => false
  end.

(** [k] is a prefix of [p]. *)
Fixpoint prefixb (k p : list tok) : bool :=
  match k, p with
  | [], _ => true
  | x :: k', y :: p' => tok_eqb x y && prefixb k' p'
  | _ :: _, [] => false
  end.

(** [k] occurs in [p] as a contiguous run of tokens. *)
Fixpoint infixb (k p : list tok) : bool :=
  match p with
  | [] => prefixb k []
  | _ :: p' => prefixb k p || infixb k p'
  end.

(** A frame of one row without any of the configured columns. *)
Definition one_row_frame : frame := {| columns := []; rows := [fun _ => CNone] |}.

(** Three listings with an [id], a listing text and a fake-listing
    probability (given in percent: the first value is above 1). *)
Definition sample_frame : frame :=
  let cfg := default_config in
  {| columns := ["id"; text_col cfg; fake_prob_col cfg]%string;
     rows := [fun c => if string_dec c "id" then CNum (Fin 1)
                       else if string_dec c (text_col cfg) then CStr (utf8 "so do chinh chu")
                       else if string_dec c (fake_prob_col cfg) then CNum (Fin 50) else CNone;
              fun c => if string_dec c "id" then CNum (Fin 2)
                       else if string_dec c (fake_prob_col cfg) then CNum (Fin (3 / 10))
                       else CNone;
              fun c => if string_dec c "id" then CNum (Fin 3)
                       else if string_dec c (text_col cfg) then CStr (utf8 "can ho")
                       else CNone] |}.

(** Nine evenly spaced scores [0.1 .. 0.9]. *)
Definition nine_scores : list R :=
  [1/10; 2/10; 3/10; 4/10; 5/10; 6/10; 7/10; 8/10; 9/10].

(** A listing row with the given unit price and government price. *)
Definition price_row (unit gov : R) : row :=
  fun c => if string_dec c (unit_price_col default_config) then CNum (Fin unit)
           else if string_dec c (gov_price_col default_config) then CNum (Fin gov)
           else CNone.

(** Two listings whose government price is negative. *)
Definition negative_gov_frame : frame :=
  {| columns := [unit_price_col default_config; gov_price_col default_config];
     rows := [price_row 10 (-2); price_row (-10) (-1)] |}.

(** ** Shapes of the columns written by [add_risk_components] *)

(** A finished component cell: NaN or a finite number in [[0,1]]. *)
Definition unit_or_nan (x : cell) : Prop :=
  x = CNum NaN \/ exists v, x = CNum (Fin v) /\ 0 <= v <= 1.

(** The columns [add_risk_components] writes, in order. *)
Definition COMPONENT_COLS : list string :=
  ["S_legal"; "S_plan"; "S_fake"; "ListingGap"; "S_price"]%string.

(** One column written row by row: each output row is the input row with
    column [c] set to a value satisfying [Q]. *)
Definition col_step (c : string) (Q : cell -> Prop) (r r' : row) : Prop :=
  exists v, Q v /\ r' = upd r c v.

End Scoring.

(** * The segment areas of [non_agri_land_tax_vnd] in IEEE double precision

    The real-number model above has no rounding and no NaN or infinity.
    This module embeds the first lines of [non_agri_land_tax_vnd] (the
    floored inputs and the segment areas, tax.py lines 101-114) over the
    binary64 floats of Python, as specified by the Standard Library's
    [SpecFloat] (round to nearest even, signed zeros, infinities, NaN). *)
Module TaxFloat.
Import SpecFloat.

Definition prec : Z := 53.
Definition emax : Z := 1024.

(** A Python [float]. *)
Definition float := spec_float.

Definition fadd : float -> float -> float := SFadd prec emax.
Definition fsub : float -> float -> float := SFsub prec emax.
Definition fmul : float -> float -> float := SFmul prec emax.
Definition fdiv : float -> float -> float := SFdiv prec emax.

(** [0.0] *)
Definition zero : float := S754_zero false.

(** [float(n)] for an integer [n]. *)
Definition of_int (n : Z) : float := binary_normalize prec emax n 0 false.

(** The float literal [n / 10^k] (for instance [208.6] is [of_decimal 2086 1]):
    the correctly rounded quotient of two exactly represented integers, that
    is the double nearest to the decimal, as Python reads the literal. *)
Definition of_decimal (n : Z) (k : nat) : float := fdiv (of_int n) (of_int (10 ^ Z.of_nat k)).

(** Python's [a < b] on floats (false as soon as one side is NaN). *)
Definition flt (a b : float) : bool := SFltb a b.

(** Python's [max(a, b)]: [b] if [b > a], else [a]. *)
Definition py_max (a b : float) : float := if flt a b then b else a.

(** Python's [min(a, b)]: [b] if [b < a], else [a]. *)
Definition py_min (a b : float) : float := if flt b a then b else a.

(** An argument of the tax functions, seen through Python's [float(x)]:
    [float(x)] returns some float (possibly NaN or infinite, as for
    [float("nan")], [float("inf")] or [float("1e999")]), or it raises. *)
Inductive pyval :=
| PyFloat (f : float)
| PyBad.

(** [_to_float(x, default)] *)
Definition _to_float (x : pyval) (default : float) : float :=
  match x with
  | PyFloat f => f
  | PyBad => default
  end.

Record segments := {
  s_area : float;
  s_quota : float;
  s_a1 : float;   (* within_quota_m2 *)
  s_a2 : float;   (* over_quota_to_3x_m2 *)
  s_a3 : float    (* over_3x_quota_m2 *)
}.

(** The floored area and quota and the three segment areas computed by
    [non_agri_land_tax_vnd(area_m2, gov_price_mil_m2, quota_m2, relief)];
    the government price and the relief do not enter them.  [2 * quota]
    multiplies by [float(2)]. *)
Definition non_agri_segments (area_m2 quota_m2 : pyval) : segments :=
  let area := py_max (_to_float area_m2 zero) zero in
  let quota := py_max (_to_float quota_m2 zero) zero in
  let a1 := if flt zero quota then py_min area quota else zero in
  let '(a1, a2, a3) :=
    if flt zero quota then
      (a1,
       py_min (py_max (fsub area quota) zero) (fmul (of_int 2) quota),
       py_max (fsub area (fmul (of_int 3) quota)) zero)
    else (area, zero, zero) in
  {| s_area := area; s_quota := quota; s_a1 := a1; s_a2 := a2; s_a3 := a3 |}.

(** Python's [x >= 0] on a float. *)
Definition nonneg (x : float) : bool := SFleb zero x.

(** [math.isnan(x)] *)
Definition is_nan (x : float) : bool :=
  match x with S754_nan => true | _ => false end.

(** [math.isfinite(x)] *)
Definition is_finite (x : float) : bool :=
  match x with S754_zero _ | S754_finite _ _ _ => true | _ => false end.

(** [x] is a number (not NaN) with sign bit [s]. *)
Definition sign_is (s : bool) (x : float) : Prop :=
  match x with
  | S754_zero s' | S754_infinity s' | S754_finite s' _ _ => s' = s
  | S754_nan => False
  end.

End TaxFloat.

(** * Properties of the tax functions *)

Module TaxProofs.
Import Tax.

Lemma py_max_Rmax (a b : R) : py_max a b = Rmax a b.
Proof.
  unfold py_max, Rmax.
  destruct (Rlt_dec a b); destruct (Rle_dec a b); lra.
Qed.

Lemma py_min_Rmin (a b : R) : py_min a b = Rmin a b.
Proof.
  unfold py_min, Rmin.
  destruct (Rlt_dec b a); destruct (Rle_dec a b); lra.
Qed.

Lemma Rmax_0_nonneg (a : R) : 0 <= Rmax a 0.
Proof. apply Rmax_r. Qed.

(** The pre-relief part of the result does not read [relief]. *)
Lemma before_relief_indep (area gov quota : pyobj) (rel rel' : option string) :
  lt_tax_vnd_before_relief (non_agri_land_tax_vnd area gov quota rel)
  = lt_tax_vnd_before_relief (non_agri_land_tax_vnd area gov quota rel')
  /\ lt_segments (non_agri_land_tax_vnd area gov quota rel)
     = lt_segments (non_agri_land_tax_vnd area gov quota rel').
Proof.
  unfold non_agri_land_tax_vnd.
  destruct (if Rlt_dec 0 _ then _ else _) as [[a1 a2] a3].
  destruct (if string_dec (relief_or_none rel) _ then _ else _) as [[x1 x2] x3].
  destruct (if string_dec (relief_or_none rel') _ then _ else _) as [[y1 y2] y3].
  split; reflexivity.
Qed.

(** ** C1 *)

(** Claim C1: with the inputs floored at 0 (area A, quota Q, government
    price G in million VND per m2), the segment areas are
    [min(A, Q)], [clamp(A - Q, 0, 2Q)] and [max(A - 3Q, 0)] when [Q > 0],
    and [A, 0, 0] when [Q <= 0]; each pre-relief bracket tax is the segment
    area times the price in VND ([G * 10^6]) times the fixed rate 0.03%,
    0.07%, 0.15%; and the pre-relief total is the sum of the three. *)
Theorem non_agri_segments_rates_total (area_m2 gov quota_m2 : pyobj)
    (relief : option string) :
  let res := non_agri_land_tax_vnd area_m2 gov quota_m2 relief in
  let A := Rmax (to_float0 area_m2) 0 in
  let Q := Rmax (to_float0 quota_m2) 0 in
  let G := Rmax (to_float0 gov) 0 in
  let s := lt_segments res in
  let b := lt_tax_vnd_before_relief res in
  (0 < Q ->
     within_quota_m2 s = Rmin A Q
     /\ over_quota_to_3x_m2 s = Rmin (Rmax (A - Q) 0) (2 * Q)
     /\ over_3x_quota_m2 s = Rmax (A - 3 * Q) 0)
  /\ (Q <= 0 ->
     within_quota_m2 s = A /\ over_quota_to_3x_m2 s = 0 /\ over_3x_quota_m2 s = 0)
  /\ t_within_quota b = within_quota_m2 s * (G * 1000000) * (3 / 10000)
  /\ t_over_quota_to_3x b = over_quota_to_3x_m2 s * (G * 1000000) * (7 / 10000)
  /\ t_over_3x_quota b = over_3x_quota_m2 s * (G * 1000000) * (15 / 10000)
  /\ t_total b = t_within_quota b + t_over_quota_to_3x b + t_over_3x_quota b.
Proof.
  intros res A Q G s b.
  subst res A Q G s b.
  unfold non_agri_land_tax_vnd.
  rewrite !py_max_Rmax.
  destruct (Rlt_dec 0 (Rmax (to_float0 quota_m2) 0)) as [Hq|Hq];
  destruct (string_dec (relief_or_none relief) _);
  try destruct (string_dec (relief_or_none relief) _);
  try destruct (string_dec (relief_or_none relief) _);
  try destruct (string_dec (relief_or_none relief) _);
  simpl; rewrite ?py_min_Rmin, ?py_max_Rmax;
  unfold r1, r2, r3;
  repeat split; intros; try lra; try ring.
Qed.

(** Case analysis on every real comparison of the goal, the propositional
    hypotheses reverted first so that each case rewrites them too. *)
Ltac revert_props :=
  repeat match goal with H : ?P |- _ =>
    match type of P with Prop => revert H end end.

Ltac rcases :=
  repeat (revert_props;
          match goal with
          | |- context [Rle_dec ?a ?b] => destruct (Rle_dec a b)
          | |- context [Rlt_dec ?a ?b] => destruct (Rlt_dec a b)
          end);
  intros.

(** ** C10 *)

(** In exact arithmetic (finite inputs, no rounding) the three segment
    areas are non-negative and add up to the floored area
    [max(area_m2, 0)], whichever branch on the quota the code takes. *)
Theorem non_agri_segments_partition (area_m2 gov quota_m2 : pyobj)
    (relief : option string) :
  let s := lt_segments (non_agri_land_tax_vnd area_m2 gov quota_m2 relief) in
  0 <= within_quota_m2 s /\ 0 <= over_quota_to_3x_m2 s /\ 0 <= over_3x_quota_m2 s
  /\ within_quota_m2 s + over_quota_to_3x_m2 s + over_3x_quota_m2 s
     = Rmax (to_float0 area_m2) 0.
Proof.
  intro s; subst s.
  unfold non_agri_land_tax_vnd.
  rewrite !py_max_Rmax.
  pose proof (Rmax_0_nonneg (to_float0 area_m2)) as Ha.
  pose proof (Rmax_0_nonneg (to_float0 quota_m2)) as Hq.
  set (A := Rmax (to_float0 area_m2) 0) in *.
  set (Q := Rmax (to_float0 quota_m2) 0) in *.
  destruct (Rlt_dec 0 Q) as [HQ|HQ];
  destruct (if string_dec (relief_or_none relief) _ then _ else _) as [[x1 x2] x3];
  simpl; unfold py_min, py_max, Rmax in *; rcases; lra.
Qed.

(** ** C8 *)

(** Claim C8: with [relief = "exempt_within_quota"] the post-relief
    bracket-1 amount is 0 and the post-relief bracket-2 and bracket-3
    amounts equal their pre-relief values; and for every relief the
    pre-relief amounts and total are those returned with [relief = "none"]. *)
Theorem relief_exempt_within_quota_frame (area_m2 gov quota_m2 : pyobj) :
  (let res := non_agri_land_tax_vnd area_m2 gov quota_m2 (Some "exempt_within_quota"%string) in
   t_within_quota (lt_tax_vnd res) = 0
   /\ t_over_quota_to_3x (lt_tax_vnd res) = t_over_quota_to_3x (lt_tax_vnd_before_relief res)
   /\ t_over_3x_quota (lt_tax_vnd res) = t_over_3x_quota (lt_tax_vnd_before_relief res))
  /\ (forall relief : option string,
        lt_tax_vnd_before_relief (non_agri_land_tax_vnd area_m2 gov quota_m2 relief)
        = lt_tax_vnd_before_relief (non_agri_land_tax_vnd area_m2 gov quota_m2 (Some "none"%string))).
Proof.
  split.
  - unfold non_agri_land_tax_vnd.
    destruct (if Rlt_dec 0 _ then _ else _) as [[a1 a2] a3].
    simpl. repeat split.
  - intro relief. apply before_relief_indep.
Qed.

(** ** C2 *)

(** Claim C2 (counterexample): the rate is not floored at 0; a negative
    rate is reported as given and makes the registration fee negative. *)
Lemma registration_fee_negative_rate :
  let r := registration_fee_land_vnd (PyFloatable 100) (PyFloatable 10)
             (PyFloatable (-1 / 200)) false in
  rf_rate r = -1 / 200 /\ rf_fee_vnd r = -5000000 /\ rf_fee_vnd r < 0.
Proof.
  simpl. unfold to_float0, _to_float, py_max. rcases; lra.
Qed.

(** Claim C2, as amended: every function is total; each input goes through
    [_to_float], which turns an input [float()] rejects into 0; area,
    government price, quota and transfer price are floored at 0, while the
    rate is used and reported as [_to_float] returns it. *)
Theorem tax_inputs_coerced_and_floored :
  (to_float0 PyUnfloatable = 0)
  /\ (forall (area_m2 gov rate : pyobj) (exempt : bool),
        let r := registration_fee_land_vnd area_m2 gov rate exempt in
        rf_base_value_vnd r = Rmax (to_float0 area_m2) 0 * Rmax (to_float0 gov) 0 * 1000000
        /\ 0 <= rf_base_value_vnd r
        /\ rf_fee_vnd r = (if exempt then 0 else rf_base_value_vnd r * to_float0 rate)
        /\ rf_rate r = to_float0 rate)
  /\ (forall (price rate : pyobj) (exempt : bool),
        let r := pit_transfer_tax_vnd price rate exempt in
        pit_tax_base_vnd r = Rmax (to_float0 price) 0 * 1000000000
        /\ 0 <= pit_tax_base_vnd r
        /\ pit_pit_vnd r = (if exempt then 0 else pit_tax_base_vnd r * to_float0 rate)
        /\ pit_rate r = to_float0 rate)
  /\ (forall (area_m2 gov quota_m2 : pyobj) (relief : option string),
        let r := non_agri_land_tax_vnd area_m2 gov quota_m2 relief in
        lt_area_m2 r = Rmax (to_float0 area_m2) 0
        /\ lt_gov_price_mil_m2 r = Rmax (to_float0 gov) 0
        /\ lt_quota_m2 r = Rmax (to_float0 quota_m2) 0
        /\ 0 <= lt_area_m2 r /\ 0 <= lt_gov_price_mil_m2 r /\ 0 <= lt_quota_m2 r).
Proof.
  split; [reflexivity|].
  split; [|split].
  - intros area_m2 gov rate exempt r; subst r; simpl.
    rewrite !py_max_Rmax.
    pose proof (Rmax_0_nonneg (to_float0 area_m2)).
    pose proof (Rmax_0_nonneg (to_float0 gov)).
    repeat split; try reflexivity.
    apply Rmult_le_pos; [apply Rmult_le_pos|]; lra.
  - intros price rate exempt r; subst r; simpl.
    rewrite !py_max_Rmax.
    pose proof (Rmax_0_nonneg (to_float0 price)).
    repeat split; try reflexivity. lra.
  - intros area_m2 gov quota_m2 relief r; subst r.
    unfold non_agri_land_tax_vnd.
    destruct (if Rlt_dec 0 _ then _ else _) as [[a1 a2] a3].
    destruct (if string_dec (relief_or_none relief) _ then _ else _) as [[x1 x2] x3].
    simpl. rewrite !py_max_Rmax.
    repeat split; try reflexivity; apply Rmax_0_nonneg.
Qed.

End TaxProofs.

(** * The segment areas in floating point *)

Module TaxFloatProofs.
Import SpecFloat TaxFloat.

Lemma iter_pos_inv {A : Type} (P : A -> Prop) (f : A -> A) :
  (forall x, P x -> P (f x)) -> forall n x, P x -> P (iter_pos f n x).
Proof. intros Hf n. induction n; intros x Hx; simpl; auto. Qed.

Lemma shr_1_nonneg (mrs : shr_record) : (0 <= shr_m mrs)%Z -> (0 <= shr_m (shr_1 mrs))%Z.
Proof. destruct mrs as [[|[p|p|]|p] r s]; simpl; lia. Qed.

Lemma shr_fexp_nonneg (m e : Z) (l : location) :
  (0 <= m)%Z -> (0 <= shr_m (fst (shr_fexp prec emax m e l)))%Z.
Proof.
  intro Hm. unfold shr_fexp, shr.
  destruct (_ - e)%Z; simpl;
    [destruct l as [|[]]; simpl; exact Hm| |destruct l as [|[]]; simpl; exact Hm].
  apply iter_pos_inv; [exact shr_1_nonneg|]. destruct l as [|[]]; simpl; exact Hm.
Qed.

Lemma round_nearest_even_nonneg (m : Z) (l : location) :
  (0 <= m)%Z -> (0 <= round_nearest_even m l)%Z.
Proof. intro Hm. destruct l as [|[]]; simpl; try destruct (Z.even m); lia. Qed.

(** Rounding a non-negative mantissa never gives NaN and keeps the sign. *)
Lemma binary_round_aux_sign (sx : bool) (m e : Z) (l : location) :
  (0 <= m)%Z -> sign_is sx (binary_round_aux prec emax sx m e l).
Proof.
  intro Hm. unfold binary_round_aux.
  pose proof (shr_fexp_nonneg m e l Hm) as H1.
  destruct (shr_fexp prec emax m e l) as [mrs' e'] eqn:E1. simpl in H1.
  pose proof (shr_fexp_nonneg (round_nearest_even (shr_m mrs') (loc_of_shr_record mrs')) e'
                loc_Exact (round_nearest_even_nonneg _ _ H1)) as H2.
  destruct (shr_fexp prec emax _ e' loc_Exact) as [mrs'' e''] eqn:E2. simpl in H2.
  destruct (shr_m mrs'') as [|p|p]; [exact eq_refl| |lia].
  destruct (e'' <=? emax - prec)%Z; exact eq_refl.
Qed.

Lemma binary_normalize_sign (m e : Z) (s : bool) :
  exists s', sign_is s' (binary_normalize prec emax m e s).
Proof.
  destruct m as [|p|p]; simpl.
  - exists s. exact eq_refl.
  - exists false. unfold binary_round.
    destruct (shl_align p e _). apply binary_round_aux_sign. lia.
  - exists true. unfold binary_round.
    destruct (shl_align p e _). apply binary_round_aux_sign. lia.
Qed.

Lemma sign_is_not_nan (s : bool) (x : float) : sign_is s x -> is_nan x = false.
Proof. destruct x; simpl; tauto. Qed.

Lemma sign_false_nonneg (x : float) : sign_is false x -> nonneg x = true.
Proof.
  destruct x as [[]|[]| |[]]; simpl; intro H; try discriminate; try contradiction; reflexivity.
Qed.

Lemma nonneg_not_nan (x : float) : nonneg x = true -> is_nan x = false.
Proof. destruct x; simpl; intro H; first [reflexivity | discriminate]. Qed.

Lemma finite_not_nan (x : float) : is_finite x = true -> is_nan x = false.
Proof. destruct x; simpl; intro H; first [reflexivity | discriminate]. Qed.

(** [max(x, 0.0)] is NaN exactly when [x] is, and [>= 0] otherwise. *)
Lemma py_max_zero (x : float) :
  is_nan (py_max x zero) = is_nan x /\ (is_nan x = false -> nonneg (py_max x zero) = true).
Proof.
  destruct x as [[]|[]| |[] m e]; unfold py_max, flt; simpl; split;
    try reflexivity; try discriminate.
Qed.

Lemma py_max_zero_nn (x : float) :
  is_nan (py_max x zero) = true \/ nonneg (py_max x zero) = true.
Proof.
  destruct (py_max_zero x) as [H1 H2]. destruct (is_nan x) eqn:E.
  - left. rewrite H1. reflexivity.
  - right. apply H2. reflexivity.
Qed.

Lemma py_min_cases (x y : float) : py_min x y = x \/ py_min x y = y.
Proof. unfold py_min. destruct (flt y x); tauto. Qed.

Lemma flt_zero_nonneg (q : float) : flt zero q = true -> nonneg q = true.
Proof. destruct q as [[]|[]| |[]]; simpl; intro H; try discriminate; reflexivity. Qed.

Lemma of_int_2_3 :
  of_int 2 = S754_finite false 4503599627370496 (-51)
  /\ of_int 3 = S754_finite false 6755399441055744 (-51).
Proof. split; vm_compute; reflexivity. Qed.

(** A positive float times a number greater than 0 is [>= 0], never NaN. *)
Lemma mul_pos (m : positive) (e : Z) (q : float) :
  flt zero q = true -> sign_is false (fmul (S754_finite false m e) q).
Proof.
  destruct q as [[]|[]| |[] mq eq]; simpl; intro H; try discriminate; try exact eq_refl.
  apply binary_round_aux_sign. lia.
Qed.

(** A finite float minus a number is never NaN. *)
Lemma sub_finite_l (x y : float) :
  is_finite x = true -> is_nan y = false -> is_nan (fsub x y) = false.
Proof.
  destruct x as [sx|sx| |sx mx ex]; intro Hx; try discriminate;
  destruct y as [sy|sy| |sy my ey]; intro Hy; try discriminate; unfold fsub; simpl;
  try (destruct sx, sy; reflexivity); try reflexivity.
  destruct (binary_normalize_sign (cond_Zopp sx (Zpos (fst (shl_align mx ex (Z.min ex ey))))
              - cond_Zopp sy (Zpos (fst (shl_align my ey (Z.min ex ey))))) (Z.min ex ey) false)
    as [s' Hs].
  exact (sign_is_not_nan _ _ Hs).
Qed.

(** The segment areas in floating point: each is NaN or [>= 0]; a NaN
    floored area makes [within_quota_m2] NaN; a finite floored area makes
    all three [>= 0]. *)
Lemma non_agri_segments_float_signs (area_m2 quota_m2 : pyval) :
  let s := non_agri_segments area_m2 quota_m2 in
  (forall a, In a [s_a1 s; s_a2 s; s_a3 s] -> is_nan a = true \/ nonneg a = true)
  /\ (is_nan (s_area s) = true -> is_nan (s_a1 s) = true)
  /\ (is_finite (s_area s) = true ->
        forall a, In a [s_a1 s; s_a2 s; s_a3 s] -> nonneg a = true).
Proof.
  destruct of_int_2_3 as [E2 E3].
  cbv zeta. unfold non_agri_segments. cbv zeta.
  set (area := py_max (_to_float area_m2 zero) zero).
  set (quota := py_max (_to_float quota_m2 zero) zero).
  pose proof (py_max_zero_nn (_to_float area_m2 zero)) as Ha. fold area in Ha.
  destruct (flt zero quota) eqn:Hq; cbn [s_a1 s_a2 s_a3 s_area s_quota].
  - rewrite E2, E3. pose proof (flt_zero_nonneg _ Hq) as Hqn.
    pose proof (mul_pos 4503599627370496 (-51) _ Hq) as H2q.
    pose proof (mul_pos 6755399441055744 (-51) _ Hq) as H3q.
    set (q2 := fmul (S754_finite false 4503599627370496 (-51)) quota) in *.
    set (q3 := fmul (S754_finite false 6755399441055744 (-51)) quota) in *.
    split; [|split].
    + intros a [<-|[<-|[<-|[]]]].
      * destruct (py_min_cases area quota) as [->| ->]; tauto.
      * destruct (py_min_cases (py_max (fsub area quota) zero) q2) as [->| ->].
        -- apply py_max_zero_nn.
        -- right. exact (sign_false_nonneg _ H2q).
      * apply py_max_zero_nn.
    + intro Hn. unfold py_min, flt. destruct area; try discriminate.
      destruct (SFltb quota S754_nan) eqn:E; [|reflexivity].
      destruct quota; discriminate.
    + intros Hf a Ha'.
      assert (Han : nonneg area = true)
        by (destruct Ha as [Ha|Ha];
            [rewrite (finite_not_nan _ Hf) in Ha; discriminate|exact Ha]).
      assert (Hsub : forall y, is_nan y = false -> nonneg (py_max (fsub area y) zero) = true)
        by (intros y Hy; exact (proj2 (py_max_zero _) (sub_finite_l _ _ Hf Hy))).
      destruct Ha' as [<-|[<-|[<-|[]]]].
      * destruct (py_min_cases area quota) as [->| ->]; assumption.
      * destruct (py_min_cases (py_max (fsub area quota) zero) q2) as [->| ->].
        -- exact (Hsub _ (nonneg_not_nan _ Hqn)).
        -- exact (sign_false_nonneg _ H2q).
      * exact (Hsub _ (sign_is_not_nan _ _ H3q)).
  - split; [|split].
    + intros a [<-|[<-|[<-|[]]]]; [exact Ha|right; reflexivity|right; reflexivity].
    + intro Hn. exact Hn.
    + intros Hf a [<-|[<-|[<-|[]]]]; try reflexivity.
      destruct Ha as [Ha|Ha]; [rewrite (finite_not_nan _ Hf) in Ha; discriminate|exact Ha].
Qed.

(** ** C10 *)

(** Claim C10 (counterexample): in floating point the segments of area
    [208.6] with quota [80.3] add up to [208.60000000000002], the double
    after [208.6], not to the area; and the segment [within_quota_m2] of a
    NaN area is NaN, not [>= 0]. *)
Lemma non_agri_segments_sum_inexact :
  (let s := non_agri_segments (PyFloat (of_decimal 2086 1)) (PyFloat (of_decimal 803 1)) in
   s_area s = S754_finite false 7339460017730355 (-45)
   /\ fadd (fadd (s_a1 s) (s_a2 s)) (s_a3 s) = S754_finite false 7339460017730356 (-45)
   /\ SFeqb (fadd (fadd (s_a1 s) (s_a2 s)) (s_a3 s)) (s_area s) = false)
  /\ (let s := non_agri_segments (PyFloat S754_nan) (PyFloat (of_decimal 803 1)) in
      is_nan (s_a1 s) = true /\ nonneg (s_a1 s) = false).
Proof. vm_compute. repeat split; reflexivity. Qed.

(** Claim C10, as amended: in floating point every segment area is NaN or
    [>= 0]; a NaN floored area makes [within_quota_m2] NaN; when the floored
    area is finite (neither NaN nor infinite) all three segments are
    [>= 0].  In exact arithmetic on finite inputs (the real-number model
    [Tax.non_agri_land_tax_vnd]) they are [>= 0] and add up to the floored
    area [max(area_m2, 0)] in both branches on the quota. *)
Theorem non_agri_segments_nonneg_float (area_m2 quota_m2 : pyval) :
  (let s := non_agri_segments area_m2 quota_m2 in
   (forall a, In a [s_a1 s; s_a2 s; s_a3 s] -> is_nan a = true \/ nonneg a = true)
   /\ (is_nan (s_area s) = true -> is_nan (s_a1 s) = true)
   /\ (is_finite (s_area s) = true ->
         forall a, In a [s_a1 s; s_a2 s; s_a3 s] -> nonneg a = true))
  /\ (forall (area gov quota : Tax.pyobj) (relief : option string),
        let s := Tax.lt_segments (Tax.non_agri_land_tax_vnd area gov quota relief) in
        (0 <= Tax.within_quota_m2 s /\ 0 <= Tax.over_quota_to_3x_m2 s
         /\ 0 <= Tax.over_3x_quota_m2 s)%R
        /\ (Tax.within_quota_m2 s + Tax.over_quota_to_3x_m2 s + Tax.over_3x_quota_m2 s
            = Rmax (Tax.to_float0 area) 0)%R).
Proof.
  split; [exact (non_agri_segments_float_signs area_m2 quota_m2)|].
  intros area gov quota relief.
  destruct (TaxProofs.non_agri_segments_partition area gov quota relief) as (H1 & H2 & H3 & H4).
  split; [split; [exact H1|split; assumption]|exact H4].
Qed.

End TaxFloatProofs.

(** * Properties of the scoring code *)

Module ScoringProofs.
Import Scoring.
Import TaxProofs.

Lemma ln_le (x y : R) : 0 < x -> x <= y -> ln x <= ln y.
Proof.
  intros Hx Hxy. destruct (Rle_lt_or_eq_dec x y Hxy) as [H|H].
  - left. apply ln_increasing; assumption.
  - subst. right. reflexivity.
Qed.

Lemma ln_cap_pos (cap : R) : 1 < cap -> 0 < ln cap.
Proof. intro H. rewrite <- ln_1. apply ln_increasing; lra. Qed.

Lemma div_pos_le (a b L : R) : 0 < L -> a <= b -> a / L <= b / L.
Proof.
  intros HL Hab. unfold Rdiv. apply Rmult_le_compat_r; [|assumption].
  left. apply Rinv_0_lt_compat. exact HL.
Qed.

Lemma clamp01_bounds (x : R) : 0 <= Rmin (Rmax x 0) 1 <= 1.
Proof. unfold Rmin, Rmax; rcases; lra. Qed.

Lemma clamp01_mono (x y : R) : x <= y -> Rmin (Rmax x 0) 1 <= Rmin (Rmax y 0) 1.
Proof. intro H. unfold Rmin, Rmax; rcases; lra. Qed.

(** On a positive finite ratio, [normalize_log_ratio] is the clamped
    log-ratio (the floor at [1e-9] is below 1, where the clamp gives 0
    anyway). *)
Lemma normalize_pos (r cap : R) :
  0 < r -> 1 < cap ->
  normalize_log_ratio (Some (Fin r)) cap = Some (Fin (Rmin (Rmax (ln r / ln cap) 0) 1)).
Proof.
  intros Hr Hcap.
  pose proof (ln_cap_pos cap Hcap) as HL.
  unfold normalize_log_ratio.
  destruct (Rle_dec r 0) as [H|_]; [lra|].
  destruct (Rle_dec cap 0) as [H|_]; [lra|].
  destruct (Req_EM_T (ln cap) 0) as [H|_]; [lra|].
  unfold clip. rewrite py_min_Rmin, py_max_Rmax.
  f_equal. f_equal.
  unfold py_max. destruct (Rlt_dec r (1 / 1000000000)) as [Hs|Hs]; [|reflexivity].
  assert (ln r < 0).
  { rewrite <- ln_1. apply ln_increasing; lra. }
  assert (ln (1 / 1000000000) < 0).
  { rewrite <- ln_1. apply ln_increasing; lra. }
  assert (Hi : 0 < / ln cap) by (apply Rinv_0_lt_compat; exact HL).
  unfold Rdiv at 1 3.
  assert (ln (1 / 1000000000) * / ln cap < 0) by nra.
  assert (ln r * / ln cap < 0) by nra.
  unfold Rmax; rcases; lra.
Qed.

(** ** C7 *)

(** Claim C7: for [cap > 1], [normalize_log_ratio] returns NaN on a
    missing ([None]), non-finite or non-positive ratio, and on a ratio
    [r > 0] returns [clamp(log r / log cap, 0, 1)], which lies in [[0,1]],
    is 0 for [r <= 1] (in particular at [r = 1]), is 1 for [r >= cap] (in
    particular at [r = cap]), and is non-decreasing in [r]. *)
Theorem normalize_log_ratio_contract (cap : R) (Hcap : 1 < cap) :
  normalize_log_ratio None cap = Some NaN
  /\ normalize_log_ratio (Some NaN) cap = Some NaN
  /\ normalize_log_ratio (Some PInf) cap = Some NaN
  /\ normalize_log_ratio (Some NInf) cap = Some NaN
  /\ (forall r, r <= 0 -> normalize_log_ratio (Some (Fin r)) cap = Some NaN)
  /\ (forall r, 0 < r ->
        normalize_log_ratio (Some (Fin r)) cap
        = Some (Fin (Rmin (Rmax (ln r / ln cap) 0) 1))
        /\ 0 <= Rmin (Rmax (ln r / ln cap) 0) 1 <= 1)
  /\ normalize_log_ratio (Some (Fin 1)) cap = Some (Fin 0)
  /\ (forall r, 0 < r -> r <= 1 -> normalize_log_ratio (Some (Fin r)) cap = Some (Fin 0))
  /\ normalize_log_ratio (Some (Fin cap)) cap = Some (Fin 1)
  /\ (forall r, cap <= r -> normalize_log_ratio (Some (Fin r)) cap = Some (Fin 1))
  /\ (forall r r' v v', 0 < r -> r <= r' ->
        normalize_log_ratio (Some (Fin r)) cap = Some (Fin v) ->
        normalize_log_ratio (Some (Fin r')) cap = Some (Fin v') -> v <= v').
Proof.
  pose proof (ln_cap_pos cap Hcap) as HL.
  assert (Hle1 : forall r, 0 < r -> r <= 1 -> Rmin (Rmax (ln r / ln cap) 0) 1 = 0).
  { intros r Hr H1.
    assert (ln r <= 0) by (rewrite <- ln_1; apply ln_le; lra).
    assert (ln r / ln cap <= 0 / ln cap) by (apply div_pos_le; lra).
    unfold Rdiv in *. rewrite Rmult_0_l in *.
    unfold Rmin, Rmax; rcases; lra. }
  assert (Hcap1 : forall r, cap <= r -> Rmin (Rmax (ln r / ln cap) 0) 1 = 1).
  { intros r Hr.
    assert (ln cap <= ln r) by (apply ln_le; lra).
    assert (ln cap / ln cap <= ln r / ln cap) by (apply div_pos_le; lra).
    rewrite Rdiv_diag in * by lra.
    unfold Rmin, Rmax; rcases; lra. }
  split; [reflexivity|]. split; [reflexivity|].
  split; [reflexivity|]. split; [reflexivity|].
  split.
  { intros r Hr. unfold normalize_log_ratio.
    destruct (Rle_dec r 0); [reflexivity|lra]. }
  split.
  { intros r Hr. split; [apply normalize_pos; lra|apply clamp01_bounds]. }
  split.
  { rewrite normalize_pos by lra. rewrite Hle1 by lra. reflexivity. }
  split.
  { intros r Hr H1. rewrite normalize_pos by lra. rewrite Hle1 by lra. reflexivity. }
  split.
  { rewrite normalize_pos by lra. rewrite Hcap1 by lra. reflexivity. }
  split.
  { intros r Hr. rewrite normalize_pos by lra. rewrite Hcap1 by lra. reflexivity. }
  intros r r' v v' Hr Hrr' Hv Hv'.
  rewrite normalize_pos in Hv, Hv' by lra.
  injection Hv as <-. injection Hv' as <-.
  apply clamp01_mono. apply div_pos_le; [lra|]. apply ln_le; lra.
Qed.

(** Witness of C7 at the default cap 10. *)
Lemma normalize_log_ratio_contract_witness :
  1 < 10 /\
  normalize_log_ratio (Some (Fin 10)) 10 = Some (Fin 1)
  /\ normalize_log_ratio (Some (Fin 1)) 10 = Some (Fin 0).
Proof.
  assert (H : 1 < 10) by lra.
  destruct (normalize_log_ratio_contract 10 H)
    as (_ & _ & _ & _ & _ & _ & H1 & _ & H10 & _).
  split; [exact H|]. split; [exact H10|exact H1].
Defined.

(** ** Regular-expression search *)

Lemma tok_eqb_eq (x y : tok) : tok_eqb x y = true -> x = y.
Proof.
  destruct x, y; simpl; try discriminate; auto.
  intro H. apply N.eqb_eq in H. subst. reflexivity.
Qed.

Lemma prefixb_spec (k p : list tok) : prefixb k p = true -> exists b, p = k ++ b.
Proof.
  revert p; induction k as [|x k IH]; intros p H.
  - exists p. reflexivity.
  - destruct p as [|y p]; simpl in H; [discriminate|].
    apply andb_true_iff in H as [Hxy Hk].
    apply tok_eqb_eq in Hxy. subst y.
    destruct (IH p Hk) as [b ->]. exists b. reflexivity.
Qed.

Lemma infixb_spec (k p : list tok) : infixb k p = true -> exists a b, p = a ++ k ++ b.
Proof.
  induction p as [|y p IH]; intro H; simpl in H.
  - destruct (prefixb_spec k [] H) as [b Hb]. exists [], b. exact Hb.
  - apply orb_true_iff in H as [H|H].
    + destruct (prefixb_spec k (y :: p) H) as [b Hb]. exists [], b. exact Hb.
    + destruct (IH H) as (a & b & ->). exists (y :: a), b. reflexivity.
Qed.

Lemma match_ws_suffix (p : list tok) (s : text) :
  match_prefix (WS :: p) s = true ->
  exists pre s2, s = pre ++ s2 /\ match_prefix p s2 = true.
Proof.
  induction s as [|c s IH]; intro H; simpl in H.
  - exists [], []. rewrite orb_false_r in H. split; [reflexivity|exact H].
  - apply orb_true_iff in H as [H|H].
    + exists [], (c :: s). split; [reflexivity|exact H].
    + apply andb_true_iff in H as [_ H].
      destruct (IH H) as (pre & s2 & -> & Hs2).
      exists (c :: pre), s2. split; [reflexivity|exact Hs2].
Qed.

Lemma match_app_suffix (p1 p2 : list tok) (s : text) :
  match_prefix (p1 ++ p2) s = true ->
  exists pre s2, s = pre ++ s2 /\ match_prefix p2 s2 = true.
Proof.
  revert s; induction p1 as [|[c|] p1 IH]; intros s H.
  - exists [], s. split; [reflexivity|exact H].
  - destruct s as [|c' s]; simpl in H; [discriminate|].
    apply andb_true_iff in H as [_ H].
    destruct (IH s H) as (pre & s2 & -> & Hs2).
    exists (c' :: pre), s2. split; [reflexivity|exact Hs2].
  - destruct (match_ws_suffix (p1 ++ p2) s H) as (pre & s1 & -> & H1).
    destruct (IH s1 H1) as (pre2 & s2 & -> & H2).
    exists (pre ++ pre2), s2. split; [apply app_assoc|exact H2].
Qed.

Lemma match_app_prefix (p q : list tok) (s : text) :
  match_prefix (p ++ q) s = true -> match_prefix p s = true.
Proof.
  revert s; induction p as [|[c|] p IH]; intros s H.
  - reflexivity.
  - destruct s as [|c' s]; simpl in H |- *; [discriminate|].
    apply andb_true_iff in H as [Hc H].
    rewrite Hc, (IH s H). reflexivity.
  - induction s as [|c s IHs]; simpl in H |- *.
    + apply orb_true_iff in H as [H|H]; [|discriminate].
      rewrite (IH [] H). reflexivity.
    + apply orb_true_iff in H as [H|H].
      * rewrite (IH (c :: s) H). reflexivity.
      * apply andb_true_iff in H as [Hc H].
        apply orb_true_iff. right. rewrite Hc. apply IHs. exact H.
Qed.

Lemma search_suffix (p : list tok) (pre s : text) :
  match_prefix p s = true -> search p (pre ++ s) = true.
Proof.
  intro H. induction pre as [|c pre IH]; simpl.
  - destruct s; simpl; rewrite H; reflexivity.
  - rewrite IH. apply orb_true_r.
Qed.

Lemma search_inv (p : list tok) (s : text) :
  search p s = true -> exists pre s2, s = pre ++ s2 /\ match_prefix p s2 = true.
Proof.
  induction s as [|c s IH]; intro H; simpl in H.
  - exists [], []. rewrite orb_false_r in H. split; [reflexivity|exact H].
  - apply orb_true_iff in H as [H|H].
    + exists [], (c :: s). split; [reflexivity|exact H].
    + destruct (IH H) as (pre & s2 & -> & H2).
      exists (c :: pre), s2. split; [reflexivity|exact H2].
Qed.

(** A text matching a pattern matches every contiguous part of it. *)
Lemma search_infix (a k b : list tok) (t : text) :
  search (a ++ k ++ b) t = true -> search k t = true.
Proof.
  intro H.
  destruct (search_inv _ _ H) as (pre & s2 & -> & H2).
  destruct (match_app_suffix a (k ++ b) s2 H2) as (pre2 & s3 & -> & H3).
  apply match_app_prefix in H3.
  rewrite app_assoc. apply search_suffix. exact H3.
Qed.

Lemma safe_patterns_contain_keyword :
  forallb (fun p => existsb (fun k => infixb k p) PLANNING_KEYWORDS)
    PLANNING_SAFE_PATTERNS = true.
Proof. vm_compute. reflexivity. Qed.

(** Every safe phrasing contains a planning keyword. *)
Lemma safe_implies_keyword (t : text) :
  any_search PLANNING_SAFE_PATTERNS t = true -> any_search PLANNING_KEYWORDS t = true.
Proof.
  unfold any_search. intro H.
  apply existsb_exists in H as (p & Hp & Hs).
  pose proof safe_patterns_contain_keyword as Hall.
  rewrite forallb_forall in Hall.
  specialize (Hall p Hp).
  apply existsb_exists in Hall as (k & Hk & Hinf).
  apply infixb_spec in Hinf as (a & b & ->).
  apply existsb_exists. exists k. split; [exact Hk|].
  apply (search_infix a k b). exact Hs.
Qed.

(** ** C6 *)

(** Claim C6: [planning_risk_score] returns 0.5 when no planning keyword
    occurs (whatever else the text says); otherwise 0.0 when a safe
    phrasing matches, else 1.0 when a red-flag phrasing matches, else 0.5.
    Every safe phrasing contains a keyword, so a text with a safe phrasing
    (whatever flag it also contains) scores 0.0. *)
Theorem planning_risk_score_precedence (lower : text -> text) (x : cell) :
  let t := _to_text lower x in
  (any_search PLANNING_KEYWORDS t = false -> planning_risk_score lower x = 1 / 2)
  /\ (any_search PLANNING_KEYWORDS t = true ->
      any_search PLANNING_SAFE_PATTERNS t = true -> planning_risk_score lower x = 0)
  /\ (any_search PLANNING_KEYWORDS t = true ->
      any_search PLANNING_SAFE_PATTERNS t = false ->
      any_search PLANNING_RISK_PATTERNS t = true -> planning_risk_score lower x = 1)
  /\ (any_search PLANNING_KEYWORDS t = true ->
      any_search PLANNING_SAFE_PATTERNS t = false ->
      any_search PLANNING_RISK_PATTERNS t = false -> planning_risk_score lower x = 1 / 2)
  /\ (any_search PLANNING_SAFE_PATTERNS t = true -> planning_risk_score lower x = 0).
Proof.
  intro t. unfold planning_risk_score. fold t.
  repeat split; intros Hk; try intros Hs; try intros Hr.
  - rewrite Hk. reflexivity.
  - rewrite Hk, Hs. reflexivity.
  - rewrite Hk, Hs, Hr. reflexivity.
  - rewrite Hk, Hs, Hr. reflexivity.
  - rewrite (safe_implies_keyword t Hk), Hk. reflexivity.
Qed.

(** The examples of the spec, for text already in lower case. *)
Example planning_examples :
  planning_risk_score (fun t => t) (CStr (utf8 "không dính quy hoạch")) = 0
  /\ planning_risk_score (fun t => t) (CStr (utf8 "đang tranh chấp")) = 1
  /\ planning_risk_score (fun t => t) (CStr (utf8 "giá tốt")) = 1 / 2.
Proof. vm_compute. repeat split; reflexivity. Qed.

(** ** CRITIC *)

Lemma rsum_nonneg (l : list R) : (forall x, In x l -> 0 <= x) -> 0 <= rsum l.
Proof.
  induction l as [|a l IH]; intro H; simpl; [lra|].
  assert (0 <= a) by (apply H; left; reflexivity).
  assert (0 <= rsum l) by (apply IH; intros x Hx; apply H; right; exact Hx).
  lra.
Qed.

Lemma rsum_const {A : Type} (l : list A) (a : R) :
  rsum (map (fun _ => a) l) = INR (List.length l) * a.
Proof.
  induction l as [|x l IH]; simpl; [ring|].
  rewrite IH. destruct (List.length l); simpl; ring.
Qed.

Lemma rsum_div (l : list R) (t : R) : rsum (map (fun c => c / t) l) = rsum l / t.
Proof. induction l as [|a l IH]; simpl; [unfold Rdiv; ring|]. rewrite IH. unfold Rdiv. ring. Qed.

Lemma rsum_zero (l : list nat) (f : nat -> R) :
  (forall j, In j l -> f j = 0) -> rsum (map f l) = 0.
Proof.
  induction l as [|a l IH]; intro H; simpl; [reflexivity|].
  rewrite H by (left; reflexivity). rewrite IH by (intros j Hj; apply H; right; exact Hj).
  ring.
Qed.

Lemma map_fst_combine {A B : Type} (l1 : list A) (l2 : list B) :
  List.length l1 = List.length l2 -> map fst (combine l1 l2) = l1.
Proof.
  revert l2; induction l1 as [|a l1 IH]; intros [|b l2] H; simpl in *; try discriminate;
  [reflexivity|]. rewrite IH by lia. reflexivity.
Qed.

Lemma map_snd_combine {A B : Type} (l1 : list A) (l2 : list B) :
  List.length l1 = List.length l2 -> map snd (combine l1 l2) = l2.
Proof.
  revert l2; induction l1 as [|a l1 IH]; intros [|b l2] H; simpl in *; try discriminate;
  [reflexivity|]. rewrite IH by lia. reflexivity.
Qed.

(** Sum-of-squares form of the Cauchy-Schwarz inequality. *)
Lemma lagrange_cross {A : Type} (l : list A) (f g : A -> R) (a b : R) :
  0 <= a * a * rsum (map (fun v => g v * g v) l) + b * b * rsum (map (fun v => f v * f v) l)
       - 2 * a * b * rsum (map (fun v => f v * g v) l).
Proof.
  induction l as [|x l IH]; simpl; [lra|].
  pose proof (Rle_0_sqr (a * g x - b * f x)) as Hsq. unfold Rsqr in Hsq.
  nra.
Qed.

Lemma cauchy_schwarz {A : Type} (l : list A) (f g : A -> R) :
  rsum (map (fun v => f v * g v) l) * rsum (map (fun v => f v * g v) l)
  <= rsum (map (fun v => f v * f v) l) * rsum (map (fun v => g v * g v) l).
Proof.
  induction l as [|x l IH]; simpl; [lra|].
  pose proof (lagrange_cross l f g (f x) (g x)) as Hc.
  nra.
Qed.

Lemma corr_le_1 (X : list (list R)) (j k : nat) : corr X j k <= 1.
Proof.
  unfold corr.
  destruct (Req_EM_T (sqrt (ssd X j j * ssd X k k)) 0) as [_|Hd]; [lra|].
  pose proof (sqrt_pos (ssd X j j * ssd X k k)) as Hpos.
  assert (Hd' : 0 < sqrt (ssd X j j * ssd X k k)) by lra.
  assert (Hcs : Rsqr (ssd X j k) <= ssd X j j * ssd X k k).
  { unfold Rsqr, ssd. apply cauchy_schwarz. }
  assert (Habs : ssd X j k <= sqrt (ssd X j j * ssd X k k)).
  { apply Rle_trans with (Rabs (ssd X j k)); [apply RRle_abs|].
    rewrite <- sqrt_Rsqr_abs. apply sqrt_le_1_alt. exact Hcs. }
  apply Rle_trans with (sqrt (ssd X j j * ssd X k k) / sqrt (ssd X j j * ssd X k k)).
  - apply div_pos_le; assumption.
  - rewrite Rdiv_diag by lra. lra.
Qed.

Lemma critic_C_nonneg (X : list (list R)) (m : nat) :
  forall x, In x (critic_C X m) -> 0 <= x.
Proof.
  intros x Hx. unfold critic_C in Hx.
  apply in_map_iff in Hx as (j & <- & _).
  apply Rmult_le_pos; [apply sqrt_pos|].
  apply rsum_nonneg. intros y Hy. apply in_map_iff in Hy as (k & <- & _).
  pose proof (corr_le_1 X j k). lra.
Qed.

Lemma critic_C_length (X : list (list R)) (m : nat) : List.length (critic_C X m) = m.
Proof. unfold critic_C. rewrite length_map, length_seq. reflexivity. Qed.

(** With every column of zero variance, the total content is 0. *)
Lemma critic_C_zero_var (X : list (list R)) (m : nat) :
  (forall j, (j < m)%nat -> ssd X j j = 0) -> rsum (critic_C X m) = 0.
Proof.
  intro H. unfold critic_C. apply rsum_zero. intros j Hj.
  apply in_seq in Hj. unfold stdev. rewrite H by lia.
  unfold Rdiv. rewrite Rmult_0_l, sqrt_0. ring.
Qed.

Lemma dict_set_new (d : list (string * R)) (k : string) (v : R) :
  ~ In k (map fst d) -> dict_set d k v = d ++ [(k, v)].
Proof.
  induction d as [|[k' v'] d IH]; intro Hk; [reflexivity|].
  simpl in *. destruct (string_dec k k') as [->|Hne]; [tauto|].
  rewrite IH by tauto. reflexivity.
Qed.

(** Distinct keys: the dict keeps every item, in order. *)
Lemma dict_of_items_nodup (items : list (string * R)) :
  NoDup (map fst items) -> dict_of_items items = items.
Proof.
  unfold dict_of_items. intro Hnd.
  assert (G : forall d, NoDup (map fst (d ++ items)) ->
            fold_left (fun d kv => dict_set d (fst kv) (snd kv)) items d = d ++ items).
  { clear Hnd. induction items as [|[k v] items IH]; intros d Hd; simpl.
    - rewrite app_nil_r. reflexivity.
    - rewrite dict_set_new.
      + rewrite IH; [rewrite <- app_assoc; reflexivity|].
        rewrite <- app_assoc. exact Hd.
      + rewrite map_app in Hd. simpl in Hd. apply NoDup_remove_2 in Hd.
        rewrite in_app_iff in Hd. tauto. }
  exact (G [] Hnd).
Qed.

Lemma has_dup_nodup (l : list string) : NoDup l -> has_dup l = false.
Proof.
  induction l as [|x l IH]; intro Hnd; [reflexivity|].
  inversion Hnd as [|? ? Hx Hl]; subst. simpl.
  destruct (in_dec string_dec x l); [contradiction|]. exact (IH Hl).
Qed.

Lemma equal_weights_map (cols : list string) :
  NoDup cols -> equal_weights cols = map (fun c => (c, 1 / INR (List.length cols))) cols.
Proof.
  intro Hnd. unfold equal_weights. apply dict_of_items_nodup.
  rewrite map_map. simpl. rewrite map_id. exact Hnd.
Qed.

Lemma equal_weights_simplex (cols : list string) :
  cols <> [] -> NoDup cols ->
  map fst (equal_weights cols) = cols
  /\ (forall x, In x (map snd (equal_weights cols)) -> 0 <= x)
  /\ rsum (map snd (equal_weights cols)) = 1.
Proof.
  intros Hne Hnd. rewrite (equal_weights_map cols Hnd).
  assert (Hm : 0 < INR (List.length cols)).
  { apply lt_0_INR. destruct cols; [contradiction|simpl; lia]. }
  rewrite !map_map. split; [|split].
  - simpl. apply map_id.
  - intros x Hx. apply in_map_iff in Hx as (c & <- & _). simpl.
    unfold Rdiv. rewrite Rmult_1_l. left. apply Rinv_0_lt_compat. exact Hm.
  - simpl. rewrite rsum_const. field. lra.
Qed.

(** ** C4 *)

(** Claim C4 (counterexample): with an empty column list the weights are
    the empty dict, whose sum is 0, not 1; with the column list
    [["a"; "a"]] on a frame without rows the dict [{c: 1.0 / m for c in
    cols}] keeps the single entry [a: 0.5], whose sum is 0.5. *)
Lemma critic_weights_not_simplex :
  (exists w,
     critic_weights (fun _ => None)
       {| columns := ["S_legal"%string]; rows := [fun _ => CNum (Fin 1)] |} [] = Some w
     /\ rsum (map snd w) <> 1)
  /\ (exists w,
     critic_weights (fun _ => None) {| columns := ["a"%string]; rows := [] |}
       ["a"; "a"]%string = Some w
     /\ w = [("a"%string, 1 / 2)]
     /\ rsum (map snd w) <> 1).
Proof.
  split.
  - exists []. split; [reflexivity|]. simpl. lra.
  - exists [("a"%string, 1 / 2)]. split; [|split; [reflexivity|simpl; lra]].
    unfold critic_weights, equal_weights, dict_of_items. simpl.
    destruct (string_dec "a" "a") as [_|n]; [|contradiction n; reflexivity].
    replace (1 / (1 + 1)) with (1 / 2) by lra. reflexivity.
Qed.

(** Claim C4, as amended: for a non-empty list of distinct column names,
    whenever [critic_weights] returns (the columns convert to float), there
    is one weight per column, in column order, every weight is non-negative
    and the weights sum to 1; when the complete-case rows are empty, when
    the total content [sum C] is <= 0, or when every column has zero
    variance, the weights are exactly [1/m] each. *)
Theorem critic_weights_simplex (str_to_float : text -> option F) (fr : frame)
    (cols : list string) (w : list (string * R))
    (Hne : cols <> []) (Hnd : NoDup cols) (H : critic_weights str_to_float fr cols = Some w) :
  map fst w = cols
  /\ (forall x, In x (map snd w) -> 0 <= x)
  /\ rsum (map snd w) = 1
  /\ (forall X, float_matrix str_to_float fr cols = Some X ->
        complete_rows X = []
        \/ rsum (critic_C (complete_rows X) (List.length cols)) <= 0
        \/ (forall j, (j < List.length cols)%nat -> ssd (complete_rows X) j j = 0) ->
        w = map (fun c => (c, 1 / INR (List.length cols))) cols).
Proof.
  unfold critic_weights in H.
  destruct (float_matrix str_to_float fr cols) as [X|] eqn:HX; [|discriminate].
  assert (Hm : Nat.eqb (List.length cols) 0 = false).
  { apply Nat.eqb_neq. destruct cols; [contradiction|simpl; lia]. }
  rewrite Hm, orb_false_r in H.
  destruct (Nat.eqb (List.length (complete_rows X)) 0) eqn:H0.
  - injection H as <-.
    destruct (equal_weights_simplex cols Hne Hnd) as (H1 & H2 & H3).
    split; [exact H1|]. split; [exact H2|]. split; [exact H3|].
    intros X' HX'. exact (fun _ => equal_weights_map cols Hnd).
  - rewrite (has_dup_nodup cols Hnd) in H.
    destruct (Rle_dec (rsum (critic_C (complete_rows X) (List.length cols))) 0) as [Ht|Ht].
    + injection H as <-.
      destruct (equal_weights_simplex cols Hne Hnd) as (H1 & H2 & H3).
      split; [exact H1|]. split; [exact H2|]. split; [exact H3|].
      intros X' HX'. exact (fun _ => equal_weights_map cols Hnd).
    + injection H as <-.
      set (C := critic_C (complete_rows X) (List.length cols)) in *.
      assert (HC : List.length cols = List.length (map (fun cj => cj / rsum C) C)).
      { rewrite length_map. unfold C. rewrite critic_C_length. reflexivity. }
      rewrite dict_of_items_nodup by (rewrite map_fst_combine by exact HC; exact Hnd).
      split; [apply map_fst_combine; exact HC|].
      rewrite map_snd_combine by exact HC.
      split; [|split].
      * intros x Hx. apply in_map_iff in Hx as (c & <- & Hc).
        pose proof (critic_C_nonneg _ _ c Hc).
        unfold Rdiv. apply Rmult_le_pos; [assumption|].
        left. apply Rinv_0_lt_compat. lra.
      * rewrite rsum_div. apply Rdiv_diag. lra.
      * intros X' HX' Hdeg. injection HX' as <-.
        exfalso. destruct Hdeg as [Hd|[Hd|Hd]].
        -- rewrite Hd in H0. discriminate.
        -- unfold C in Ht. lra.
        -- unfold C in Ht. rewrite critic_C_zero_var in Ht by exact Hd. lra.
Qed.

(** Witness of C4: two rows, two non-constant columns. *)
Lemma critic_weights_simplex_witness :
  let fr := {| columns := ["a"; "b"]%string;
               rows := [fun c => if string_dec c "a" then CNum (Fin 0) else CNum (Fin 1);
                        fun c => if string_dec c "a" then CNum (Fin 1) else CNum (Fin 0)] |} in
  exists w, (["a"; "b"]%string <> []) /\ NoDup ["a"; "b"]%string /\
    critic_weights (fun _ => None) fr ["a"; "b"]%string = Some w
    /\ rsum (map snd w) = 1.
Proof.
  intro fr.
  assert (Hnd : NoDup ["a"; "b"]%string).
  { constructor; [simpl; intros [E|[]]; discriminate|].
    constructor; [simpl; tauto|constructor]. }
  destruct (critic_weights (fun _ => None) fr ["a"; "b"]%string) as [w|] eqn:Hw.
  - exists w.
    assert (Hne : ["a"; "b"]%string <> []) by discriminate.
    split; [exact Hne|]. split; [exact Hnd|]. split; [reflexivity|].
    apply (critic_weights_simplex (fun _ => None) fr ["a"; "b"]%string w Hne Hnd Hw).
  - exfalso. unfold critic_weights in Hw. simpl in Hw.
    destruct (Rle_dec _ 0); discriminate.
Defined.

(** ** Shape of [compute_risk_score]'s result *)

Lemma compute_risk_score_rows (lower : text -> text) (str_to_float : text -> option F)
    (cfg : RiskConfig) (method : text) (weights : option (list (string * R)))
    (df out : frame) (w : list (string * R)) :
  compute_risk_score lower str_to_float cfg method weights df = Some (out, w) ->
  exists base ws,
    add_risk_components lower str_to_float cfg df = Some base
    /\ mapM (fun c => lookup c w) SCOLS = Some ws
    /\ let r1 := map (fun r => upd r "Risk Score" (CNum (Fin (score_of_row ws r)))) (rows base) in
       let scores := map (score_of_row ws) r1 in
       let q33 := quantile scores 1 3 in
       let q67 := quantile scores 2 3 in
       rows out =
       map (fun r => upd r "Risk_Q67" (CNum q67))
         (map (fun r => upd r "Risk_Q33" (CNum q33))
            (map (fun r => upd r "Risk Level"
                             (CStr (utf8 (_level q33 q67 (cell_float (r "Risk Score"%string))))))
               r1)).
Proof.
  unfold compute_risk_score.
  destruct (add_risk_components lower str_to_float cfg df) as [base|]; [|discriminate].
  intro H.
  set (wsel := match weights with
               | Some w0 => Some w0
               | None => if list_eq_dec N.eq_dec (lower method) (utf8 "equal")
                         then Some (map (fun c => (c, 1 / INR (List.length SCOLS))) SCOLS)
                         else critic_weights str_to_float base SCOLS
               end) in H.
  destruct wsel as [w0|]; [|discriminate].
  destruct (mapM (fun c => lookup c w0) SCOLS) as [ws|] eqn:Hws; [|discriminate].
  injection H as <- <-.
  exists base, ws. split; [reflexivity|]. split; [exact Hws|].
  reflexivity.
Qed.

Lemma score_of_row_ext (ws : list R) (r r' : row) :
  (forall c, In c SCOLS -> r' c = r c) -> score_of_row ws r' = score_of_row ws r.
Proof.
  unfold score_of_row. generalize SCOLS ws. intros cs.
  induction cs as [|c cs IH]; intros [|wc ws'] H; simpl; try reflexivity.
  rewrite H by (left; reflexivity).
  rewrite (IH ws') by (intros c' Hc'; apply H; right; exact Hc').
  reflexivity.
Qed.

Lemma upd_other (r : row) (c k : string) (v : cell) : k <> c -> upd r c v k = r k.
Proof. intro H. unfold upd. destruct (string_dec k c); [contradiction|reflexivity]. Qed.

Lemma upd_same (r : row) (c : string) (v : cell) : upd r c v c = v.
Proof. unfold upd. destruct (string_dec c c); [reflexivity|contradiction]. Qed.

Ltac upd_simpl :=
  repeat (rewrite upd_other by discriminate);
  try rewrite upd_same.

(** ** C9 *)

(** Claim C9: the returned frame keeps the component columns [S_legal],
    [S_fake], [S_price], [S_plan] exactly as [add_risk_components] wrote
    them (NaN included), and its Risk Score is the weighted sum in which
    each component goes through [fill_half] (NaN read as 0.5). *)
Theorem compute_risk_score_components_unchanged (lower : text -> text)
    (str_to_float : text -> option F) (cfg : RiskConfig) (method : text)
    (weights : option (list (string * R))) (df out : frame) (w : list (string * R))
    (H : compute_risk_score lower str_to_float cfg method weights df = Some (out, w)) :
  exists base ws,
    add_risk_components lower str_to_float cfg df = Some base
    /\ mapM (fun c => lookup c w) SCOLS = Some ws
    /\ map (fun r => map r SCOLS) (rows out) = map (fun r => map r SCOLS) (rows base)
    /\ map (fun r => r "Risk Score"%string) (rows out)
       = map (fun r => CNum (Fin (score_of_row ws r))) (rows base).
Proof.
  destruct (compute_risk_score_rows _ _ _ _ _ _ _ _ H) as (base & ws & Hb & Hws & Hrows).
  exists base, ws. split; [exact Hb|]. split; [exact Hws|].
  cbv zeta in Hrows. rewrite Hrows, !map_map.
  split; apply map_ext; intro r; unfold SCOLS; simpl; upd_simpl; reflexivity.
Qed.


(** Witness of C9: one row without any input column; every component is
    NaN, and stays NaN in the result. *)
Lemma compute_risk_score_components_unchanged_witness :
  exists out w,
    compute_risk_score (fun t => t) (fun _ => None) default_config (utf8 "equal") None
      one_row_frame = Some (out, w)
    /\ map (fun r => map r SCOLS) (rows out) = [[CNum NaN; CNum NaN; CNum NaN; CNum NaN]].
Proof.
  destruct (compute_risk_score (fun t => t) (fun _ => None) default_config (utf8 "equal") None
              one_row_frame) as [[out w]|] eqn:Hc.
  - exists out, w. split; [reflexivity|].
    destruct (compute_risk_score_components_unchanged _ _ _ _ _ _ _ _ Hc)
      as (base & ws & Hb & _ & Hs & _).
    rewrite Hs. simpl in Hb. injection Hb as <-. reflexivity.
  - exfalso. simpl in Hc. discriminate.
Defined.

(** ** C5 *)

Lemma insert_head (x y : R) (l : list R) : x <= y -> insert x (y :: l) = x :: y :: l.
Proof. intro H. simpl. destruct (Rle_dec x y); [reflexivity|contradiction]. Qed.

Lemma sort_nine : sort nine_scores = nine_scores.
Proof.
  unfold nine_scores. cbn [sort].
  replace (insert (9/10) []) with [9/10] by reflexivity.
  repeat (rewrite insert_head by lra).
  reflexivity.
Qed.

Lemma quantile_nine_33 : quantile nine_scores 1 3 = Fin (3/10 + (4/10 - 3/10) * (2/3)).
Proof.
  unfold quantile. rewrite sort_nine. unfold nine_scores. simpl.
  f_equal. field.
Qed.

Lemma quantile_nine_67 : quantile nine_scores 2 3 = Fin (6/10 + (7/10 - 6/10) * (1/3)).
Proof.
  unfold quantile. rewrite sort_nine. unfold nine_scores. simpl.
  f_equal. field.
Qed.

Ltac rdecide :=
  repeat match goal with
  | |- context [Rle_dec ?a ?b] => destruct (Rle_dec a b); try (exfalso; lra)
  | |- context [Rlt_dec ?a ?b] => destruct (Rlt_dec a b); try (exfalso; lra)
  end.

(** Claim C5: [compute_risk_score] stores in every row the Level
    [_level Q33 Q67 score], with [Q33] and [Q67] the 1/3 and 2/3 quantiles
    of the Risk Score column of the frame it returns (also stored in
    [Risk_Q33] and [Risk_Q67]); [_level] gives "N/A" on a non-finite score,
    "Low" for a score <= Q33, "Medium" for Q33 < score <= Q67, and "High"
    above; on the nine scores 0.1 .. 0.9 the levels are three "Low", three
    "Medium", three "High". *)
Theorem risk_level_tertiles :
  (forall (lower : text -> text) (str_to_float : text -> option F) (cfg : RiskConfig)
          (method : text) (weights : option (list (string * R))) (df out : frame)
          (w : list (string * R)),
      compute_risk_score lower str_to_float cfg method weights df = Some (out, w) ->
      exists ss,
        map (fun r => r "Risk Score"%string) (rows out) = map (fun s => CNum (Fin s)) ss
        /\ map (fun r => r "Risk Level"%string) (rows out)
           = map (fun s => CStr (utf8 (_level (quantile ss 1 3) (quantile ss 2 3) (Fin s)))) ss
        /\ map (fun r => r "Risk_Q33"%string) (rows out) = map (fun _ => CNum (quantile ss 1 3)) ss
        /\ map (fun r => r "Risk_Q67"%string) (rows out) = map (fun _ => CNum (quantile ss 2 3)) ss)
  /\ (forall q33 q67 x, isfinite x = false -> _level q33 q67 x = "N/A"%string)
  /\ (forall a b s, s <= a -> _level (Fin a) (Fin b) (Fin s) = "Low"%string)
  /\ (forall a b s, a < s -> s <= b -> _level (Fin a) (Fin b) (Fin s) = "Medium"%string)
  /\ (forall a b s, a < s -> b < s -> _level (Fin a) (Fin b) (Fin s) = "High"%string)
  /\ map (fun s => _level (quantile nine_scores 1 3) (quantile nine_scores 2 3) (Fin s)) nine_scores
     = ["Low"; "Low"; "Low"; "Medium"; "Medium"; "Medium"; "High"; "High"; "High"]%string.
Proof.
  split; [|split; [|split; [|split; [|split]]]].
  - intros lower str_to_float cfg method weights df out w H.
    destruct (compute_risk_score_rows _ _ _ _ _ _ _ _ H) as (base & ws & _ & _ & Hrows).
    cbv zeta in Hrows.
    set (r1 := map (fun r => upd r "Risk Score" (CNum (Fin (score_of_row ws r)))) (rows base)) in *.
    set (ss := map (score_of_row ws) r1) in *.
    assert (Hss : ss = map (score_of_row ws) (rows base)).
    { unfold ss, r1. rewrite map_map. apply map_ext. intro r.
      apply score_of_row_ext. intros c Hc. unfold SCOLS in Hc.
      simpl in Hc. repeat destruct Hc as [<-|Hc]; try contradiction;
      upd_simpl; reflexivity. }
    exists ss. rewrite Hrows, Hss. unfold r1. rewrite <- Hss. rewrite Hss, !map_map.
    split; [|split; [|split]]; apply map_ext; intro r; upd_simpl; reflexivity.
  - intros q33 q67 x Hx. unfold _level. rewrite Hx. reflexivity.
  - intros a b s Hs. unfold _level, fle. simpl. rdecide. reflexivity.
  - intros a b s Has Hsb. unfold _level, fle. simpl. rdecide. reflexivity.
  - intros a b s Has Hbs. unfold _level, fle. simpl. rdecide. reflexivity.
  - rewrite quantile_nine_33, quantile_nine_67. unfold nine_scores.
    cbn [map]. unfold _level, fle, isfinite. cbn [negb].
    rdecide. reflexivity.
Qed.

(** ** C3 *)

Lemma ln_10_pos : 0 < ln 10.
Proof. apply ln_cap_pos. lra. Qed.

(** Claim C3 (evidence of the divergence): with the default configuration,
    a row with government price -2 and unit price 10 gets the finite
    [ListingGap = -5] (its S_price is NaN), and a row with government price
    -1 and unit price -10 gets [ListingGap = 10] and the finite
    [S_price = 1]: only a zero denominator is treated as missing. *)
Theorem negative_gov_price_not_missing (lower : text -> text)
    (str_to_float : text -> option F) :
  exists out,
    add_risk_components lower str_to_float default_config negative_gov_frame = Some out
    /\ map (fun r => (r "ListingGap"%string, r "S_price"%string)) (rows out)
       = [(CNum (Fin (-5)), CNum NaN); (CNum (Fin 10), CNum (Fin 1))].
Proof.
  pose proof ln_10_pos as H10.
  assert (Hd1 : fdiv (Fin 10) (replace0 (Fin (-2))) = Fin (-5)).
  { unfold replace0, fdiv.
    destruct (Req_EM_T (-2) 0); [lra|].
    destruct (Req_EM_T (-2) 0); [lra|]. f_equal. field. }
  assert (Hd2 : fdiv (Fin (-10)) (replace0 (Fin (-1))) = Fin 10).
  { unfold replace0, fdiv.
    destruct (Req_EM_T (-1) 0); [lra|].
    destruct (Req_EM_T (-1) 0); [lra|]. f_equal. field. }
  assert (Hn1 : normalize_log_ratio (Some (Fin (-5))) 10 = Some NaN).
  { unfold normalize_log_ratio. destruct (Rle_dec (-5) 0); [reflexivity|lra]. }
  assert (Hn2 : normalize_log_ratio (Some (Fin 10)) 10 = Some (Fin 1)).
  { rewrite normalize_pos by lra. f_equal. f_equal.
    rewrite Rdiv_diag by lra. rewrite Rmax_left by lra. apply Rmin_left. lra. }
  unfold add_risk_components, negative_gov_frame, price_row.
  cbn -[fdiv replace0 normalize_log_ratio].
  rewrite Hd1, Hd2. unfold set_col_opt. cbn -[fdiv replace0 normalize_log_ratio].
  rewrite Hn1, Hn2. cbn -[fdiv replace0 normalize_log_ratio].
  eexists. split; [reflexivity|]. cbn. reflexivity.
Qed.

End ScoringProofs.

Module ScoringFacts.
Import Scoring TaxProofs ScoringProofs.

Lemma no_pattern_on_empty :
  any_search LEGAL_RISK_PATTERNS [] = false
  /\ any_search LEGAL_CLEAR_PATTERNS [] = false
  /\ any_search PLANNING_KEYWORDS [] = false.
Proof. vm_compute. repeat split. Qed.


Lemma risk_patterns_contain_keyword :
  forallb (fun p => existsb (fun k => infixb k p) PLANNING_KEYWORDS)
    PLANNING_RISK_PATTERNS = true.
Proof. vm_compute. reflexivity. Qed.

(** A text matched by a pattern list whose every pattern contains a
    planning keyword has a planning keyword. *)
Lemma contains_keyword_implies (ps : list (list tok)) (t : text) :
  forallb (fun p => existsb (fun k => infixb k p) PLANNING_KEYWORDS) ps = true ->
  any_search ps t = true -> any_search PLANNING_KEYWORDS t = true.
Proof.
  unfold any_search. intros Hall H.
  apply existsb_exists in H as (p & Hp & Hs).
  rewrite forallb_forall in Hall.
  specialize (Hall p Hp).
  apply existsb_exists in Hall as (k & Hk & Hinf).
  apply infixb_spec in Hinf as (a & b & ->).
  apply existsb_exists. exists k. split; [exact Hk|].
  apply (search_infix a k b). exact Hs.
Qed.

(** The keyword check that opens [planning_risk_score] never decides the
    result: every safe and every red-flag phrasing contains a keyword, so
    the score is 0 when a safe phrasing matches, else 1 when a red-flag
    phrasing matches, else 0.5.  On anything but a [str] it is 0.5. *)
Theorem planning_keyword_check_redundant (lower : text -> text) :
  (forall x,
     planning_risk_score lower x =
     (let t := _to_text lower x in
      if any_search PLANNING_SAFE_PATTERNS t then 0
      else if any_search PLANNING_RISK_PATTERNS t then 1
      else 1 / 2))
  /\ (forall x, (forall s, x <> CStr s) -> planning_risk_score lower x = 1 / 2).
Proof.
  split.
  - intro x. unfold planning_risk_score. cbv zeta.
    set (t := _to_text lower x).
    destruct (any_search PLANNING_SAFE_PATTERNS t) eqn:Hs.
    + rewrite (contains_keyword_implies _ t safe_patterns_contain_keyword Hs). reflexivity.
    + destruct (any_search PLANNING_RISK_PATTERNS t) eqn:Hr.
      * rewrite (contains_keyword_implies _ t risk_patterns_contain_keyword Hr). reflexivity.
      * destruct (any_search PLANNING_KEYWORDS t); reflexivity.
  - destruct no_pattern_on_empty as (_ & _ & E3).
    intros x Hx. unfold planning_risk_score.
    destruct x as [v|s|]; [|exfalso; exact (Hx s eq_refl)|];
    cbn [_to_text]; rewrite E3; reflexivity.
Qed.

(** With a cap between [1e-9] and 1 the scale is reversed: every ratio
    [>= 1] scores 0, every positive ratio [<= cap] scores 1, and the score
    is non-increasing in the ratio. *)
Theorem normalize_log_ratio_small_cap (cap : R) (Hc0 : 1 / 1000000000 <= cap) (Hc1 : cap < 1) :
  (forall r, 1 <= r -> normalize_log_ratio (Some (Fin r)) cap = Some (Fin 0))
  /\ (forall r, 0 < r -> r <= cap -> normalize_log_ratio (Some (Fin r)) cap = Some (Fin 1))
  /\ (forall r r' v v', 0 < r -> r <= r' ->
        normalize_log_ratio (Some (Fin r)) cap = Some (Fin v) ->
        normalize_log_ratio (Some (Fin r')) cap = Some (Fin v') -> v' <= v).
Proof.
  assert (HL : ln cap < 0) by (rewrite <- ln_1; apply ln_increasing; lra).
  assert (Hinv : / ln cap < 0) by (apply Rinv_lt_0_compat; exact HL).
  (* on a positive ratio the value is the clipped log-ratio of max(r, 1e-9) *)
  assert (Hpos : forall r, 0 < r ->
            normalize_log_ratio (Some (Fin r)) cap
            = Some (Fin (clip (ln (py_max r (1 / 1000000000)) / ln cap) 0 1))).
  { intros r Hr. unfold normalize_log_ratio.
    destruct (Rle_dec r 0); [lra|].
    destruct (Rle_dec cap 0); [lra|].
    destruct (Req_EM_T (ln cap) 0); [lra|reflexivity]. }
  assert (Hmax : forall r, 0 < r -> 0 < py_max r (1 / 1000000000)
                 /\ r <= py_max r (1 / 1000000000)).
  { intros r Hr. unfold py_max. rcases; lra. }
  split; [|split].
  - intros r Hr. rewrite Hpos by lra.
    assert (Hm : py_max r (1 / 1000000000) = r) by (unfold py_max; rcases; lra).
    rewrite Hm. f_equal. f_equal.
    assert (0 <= ln r) by (rewrite <- ln_1; apply ln_le; lra).
    assert (ln r / ln cap <= 0) by (unfold Rdiv; nra).
    unfold clip, py_min, py_max. rcases; lra.
  - intros r Hr Hrc. rewrite Hpos by lra.
    destruct (Hmax r Hr) as [Hm0 Hm1].
    f_equal. f_equal.
    (* the floored ratio is at most cap: either r itself or 1e-9 < r *)
    assert (Hle : ln (py_max r (1 / 1000000000)) <= ln cap).
    { apply ln_le; [exact Hm0|]. unfold py_max. rcases; lra. }
    assert (1 <= ln (py_max r (1 / 1000000000)) / ln cap).
    { set (x := ln (py_max r (1 / 1000000000))) in *.
      set (L := ln cap) in *.
      assert (H0 : 0 <= (L - x) * (- / L)) by (apply Rmult_le_pos; lra).
      replace (x / L) with (1 + (L - x) * (- / L)) by (field; lra).
      lra. }
    set (y := ln (py_max r (1 / 1000000000)) / ln cap) in *.
    unfold clip, py_min, py_max. rcases; lra.
  - intros r r' v v' Hr Hrr Hv Hv'.
    rewrite Hpos in Hv by lra. rewrite Hpos in Hv' by lra.
    injection Hv as <-. injection Hv' as <-.
    destruct (Hmax r Hr) as [Hm0 _].
    assert (Hmm : py_max r (1 / 1000000000) <= py_max r' (1 / 1000000000))
      by (unfold py_max; rcases; lra).
    assert (Hln : ln (py_max r (1 / 1000000000)) <= ln (py_max r' (1 / 1000000000)))
      by (apply ln_le; assumption).
    assert (ln (py_max r' (1 / 1000000000)) / ln cap <= ln (py_max r (1 / 1000000000)) / ln cap)
      by (unfold Rdiv; nra).
    unfold clip, py_min, py_max in *. rcases; lra.
Qed.

(** With a single column, whenever [critic_weights] returns, the column
    gets weight 1 (on every path: no complete row, no content, or
    [C/C]). *)
Theorem critic_weights_single_column (str_to_float : text -> option F) (fr : frame)
    (c : string) (w : list (string * R))
    (H : critic_weights str_to_float fr [c] = Some w) :
  w = [(c, 1)].
Proof.
  unfold critic_weights in H.
  destruct (float_matrix str_to_float fr [c]) as [X|]; [|discriminate].
  assert (E : equal_weights [c] = [(c, 1)]).
  { unfold equal_weights, dict_of_items. simpl. f_equal. f_equal. field. }
  destruct (Nat.eqb (List.length (complete_rows X)) 0 || Nat.eqb (List.length [c]) 0)%bool.
  - injection H as <-. exact E.
  - replace (has_dup [c]) with false in H by reflexivity.
    destruct (Rle_dec _ 0) as [Ht|Ht]; injection H as <-; [exact E|].
    unfold critic_C in *. simpl in *.
    apply Rnot_le_lt in Ht. rewrite !Rplus_0_r in *. unfold dict_of_items. simpl. f_equal. f_equal. apply Rdiv_diag. lra.
Qed.


Lemma mapM_Forall2 {A B : Type} (f : A -> option B) (l : list A) (l' : list B) :
  mapM f l = Some l' -> Forall2 (fun x y => f x = Some y) l l'.
Proof.
  revert l'; induction l as [|x l IH]; intros l' H; simpl in H.
  - injection H as <-. constructor.
  - destruct (f x) as [y|] eqn:Hy; [|discriminate].
    destruct (mapM f l) as [ys|]; [|discriminate].
    injection H as <-. constructor; [exact Hy|apply IH; reflexivity].
Qed.

Lemma Forall2_map_r {A B : Type} (R0 : A -> B -> Prop) (f : A -> B) (l : list A) :
  (forall x, In x l -> R0 x (f x)) -> Forall2 R0 l (map f l).
Proof.
  induction l as [|x l IH]; intro H; simpl; constructor.
  - apply H. left. reflexivity.
  - apply IH. intros y Hy. apply H. right. exact Hy.
Qed.

Lemma Forall2_compose {A B C : Type} (R1 : A -> B -> Prop) (R2 : B -> C -> Prop)
    (l1 : list A) (l2 : list B) (l3 : list C) :
  Forall2 R1 l1 l2 -> Forall2 R2 l2 l3 ->
  Forall2 (fun a c => exists b, R1 a b /\ R2 b c) l1 l3.
Proof.
  intro H1. revert l3. induction H1 as [|a b l1 l2 Hab H1 IH]; intros l3 H2.
  - inversion H2. constructor.
  - inversion H2 as [|b' c l2' l3' Hbc H2']. subst.
    constructor; [exists b; split; assumption|apply IH; exact H2'].
Qed.

Lemma Forall2_impl' {A B : Type} (R1 R2 : A -> B -> Prop) (l1 : list A) (l2 : list B) :
  (forall a b, R1 a b -> R2 a b) -> Forall2 R1 l1 l2 -> Forall2 R2 l1 l2.
Proof. intros H HF. induction HF; constructor; auto. Qed.



Lemma set_col_step (fr : frame) (c : string) (f : row -> cell) (Q : cell -> Prop) :
  (forall r, In r (rows fr) -> Q (f r)) ->
  Forall2 (col_step c Q) (rows fr) (rows (set_col fr c f))
  /\ columns (set_col fr c f) = add_colname (columns fr) c.
Proof.
  intro H. split; [|reflexivity].
  apply Forall2_map_r. intros r Hr. exists (f r). split; [apply H; exact Hr|reflexivity].
Qed.

Lemma mapM_upd_step (l rs : list row) (c : string) (f : row -> option cell)
    (Q : cell -> Prop) :
  (forall r v, In r l -> f r = Some v -> Q v) ->
  mapM (fun r => option_map (upd r c) (f r)) l = Some rs ->
  Forall2 (col_step c Q) l rs.
Proof.
  intros HQ Hm. apply mapM_Forall2 in Hm.
  induction Hm as [|r r' l l' Hr Hm IH]; constructor.
  - destruct (f r) as [v|] eqn:Hv; simpl in Hr; [|discriminate].
    injection Hr as <-. exists v. split; [|reflexivity].
    apply (HQ r v); [left; reflexivity|exact Hv].
  - apply IH. intros r0 v H0. apply HQ. right. exact H0.
Qed.

Lemma set_col_opt_step (fr fr' : frame) (c : string) (f : row -> option cell)
    (Q : cell -> Prop) :
  (forall r v, In r (rows fr) -> f r = Some v -> Q v) ->
  set_col_opt fr c f = Some fr' ->
  Forall2 (col_step c Q) (rows fr) (rows fr')
  /\ columns fr' = add_colname (columns fr) c.
Proof.
  intros HQ H. unfold set_col_opt in H.
  destruct (mapM _ (rows fr)) as [rs|] eqn:Hm; [|discriminate].
  injection H as <-. split; [|reflexivity]. simpl.
  exact (mapM_upd_step _ _ c f Q HQ Hm).
Qed.


Lemma clip01_in (x : R) : 0 <= clip x 0 1 <= 1.
Proof. unfold clip, py_min, py_max. rcases; lra. Qed.

Lemma fclip01_unit (x : F) : unit_or_nan (CNum (fclip01 x)).
Proof.
  unfold unit_or_nan. destruct x as [r| | |]; simpl.
  - right. eexists. split; [reflexivity|apply clip01_in].
  - left. reflexivity.
  - right. exists 1. split; [reflexivity|lra].
  - right. exists 0. split; [reflexivity|lra].
Qed.

Lemma normalize_unit (ratio : option F) (cap : R) (v : F) :
  normalize_log_ratio ratio cap = Some v -> unit_or_nan (CNum v).
Proof.
  unfold normalize_log_ratio, unit_or_nan.
  destruct ratio as [[r| | |]|]; try (intro H; injection H as <-; left; reflexivity).
  destruct (Rle_dec r 0); [intro H; injection H as <-; left; reflexivity|].
  destruct (Rle_dec cap 0); [discriminate|].
  destruct (Req_EM_T (ln cap) 0); [discriminate|].
  intro H. injection H as <-. right. eexists. split; [reflexivity|apply clip01_in].
Qed.

Lemma legal_unit (lower : text -> text) (x : cell) :
  unit_or_nan (CNum (Fin (legal_risk_score lower x))).
Proof.
  unfold unit_or_nan, legal_risk_score. right. eexists. split; [reflexivity|].
  destruct (any_search LEGAL_RISK_PATTERNS _); [lra|].
  destruct (any_search LEGAL_CLEAR_PATTERNS _); lra.
Qed.

Lemma planning_unit (lower : text -> text) (x : cell) :
  unit_or_nan (CNum (Fin (planning_risk_score lower x))).
Proof.
  unfold unit_or_nan, planning_risk_score. right. eexists. split; [reflexivity|].
  destruct (negb _); [lra|].
  destruct (any_search PLANNING_SAFE_PATTERNS _); [lra|].
  destruct (any_search PLANNING_RISK_PATTERNS _); lra.
Qed.

Lemma nan_unit : unit_or_nan (CNum NaN).
Proof. left. reflexivity. Qed.

(** Row by row, [add_risk_components] sets [S_legal], [S_plan], [S_fake],
    [ListingGap] and [S_price], in this order, and nothing else; the four
    components are NaN or in [[0,1]]. *)
Lemma add_risk_components_shape (lower : text -> text) (str_to_float : text -> option F)
    (cfg : RiskConfig) (df out : frame) :
  add_risk_components lower str_to_float cfg df = Some out ->
  columns out = fold_left add_colname COMPONENT_COLS (columns df)
  /\ Forall2 (fun r r' => exists v1 v2 v3 v4 v5,
        unit_or_nan v1 /\ unit_or_nan v2 /\ unit_or_nan v3 /\ unit_or_nan v5
        /\ r' = upd (upd (upd (upd (upd r "S_legal" v1) "S_plan" v2) "S_fake" v3)
                      "ListingGap" v4) "S_price" v5)
       (rows df) (rows out).
Proof.
  unfold add_risk_components.
  set (out1 := if has_col df (text_col cfg)
               then set_col (set_col df "S_legal"
                      (fun r => CNum (Fin (legal_risk_score lower (r (text_col cfg))))))
                      "S_plan" (fun r => CNum (Fin (planning_risk_score lower (r (text_col cfg)))))
               else set_col (set_col df "S_legal" (fun _ => CNum NaN)) "S_plan"
                      (fun _ => CNum NaN)).
  assert (S1 : Forall2 (fun r r' => exists v1 v2, unit_or_nan v1 /\ unit_or_nan v2
                          /\ r' = upd (upd r "S_legal" v1) "S_plan" v2) (rows df) (rows out1)
               /\ columns out1 = add_colname (add_colname (columns df) "S_legal") "S_plan").
  { unfold out1. destruct (has_col df (text_col cfg)); (split; [|reflexivity]);
    simpl; rewrite map_map; apply Forall2_map_r; intros r _;
    eexists; eexists; (split; [|split; [|reflexivity]]);
    first [apply legal_unit|apply planning_unit|apply nan_unit]. }
  destruct (if has_col out1 (fake_prob_col cfg) then _ else _) as [out2|] eqn:E2;
    [|discriminate].
  assert (S2 : Forall2 (col_step "S_fake" unit_or_nan) (rows out1) (rows out2)
               /\ columns out2 = add_colname (columns out1) "S_fake").
  { destruct (has_col out1 (fake_prob_col cfg)).
    - match type of E2 with context [mapM ?f ?l] => destruct (mapM f l) as [fake|] end;
        [|discriminate].
      refine (set_col_opt_step _ _ _ _ unit_or_nan _ E2).
      intros r v _ Hv.
      destruct (cell_to_float str_to_float (r (fake_prob_col cfg))); [|discriminate].
      injection Hv as <-. apply fclip01_unit.
    - injection E2 as <-. apply set_col_step. intros; apply nan_unit. }
  destruct (if has_col out2 (unit_price_col cfg) && has_col out2 (gov_price_col cfg)
            then _ else _) as [out3|] eqn:E3; [|discriminate].
  intro H. injection H as <-.
  assert (S3 : Forall2 (fun r r' => exists v4 v5, unit_or_nan v5
                          /\ r' = upd (upd r "ListingGap" v4) "S_price" v5)
                 (rows out2) (rows out3)
               /\ columns out3 = add_colname (add_colname (columns out2) "ListingGap") "S_price").
  { destruct (has_col out2 (unit_price_col cfg) && has_col out2 (gov_price_col cfg)).
    - destruct (set_col_opt out2 "ListingGap" _) as [o|] eqn:E4; [|discriminate].
      destruct (set_col_opt_step _ _ _ _ (fun _ => True) (fun _ _ _ _ => I) E4) as [F4 C4].
      pose proof (fun H => set_col_opt_step _ _ _ _ unit_or_nan H E3) as P.
      lapply P; clear P; [intros [F5 C5]|].
      2:{ intros r v _ Hv. destruct (r "ListingGap"%string) as [ratio| |]; try discriminate.
        destruct (normalize_log_ratio (Some ratio) (cap_ratio cfg)) as [x|] eqn:Hx;
          [|discriminate].
        simpl in Hv. injection Hv as <-. exact (normalize_unit _ _ _ Hx). }
      split; [|rewrite C5, C4; reflexivity].
      apply (Forall2_impl' _ _ _ _ (fun a c H => H)).
      pose proof (Forall2_compose _ _ _ _ _ F4 F5) as F.
      revert F. apply Forall2_impl'.
      intros a c (b & (v4 & _ & ->) & (v5 & Hv5 & ->)). exists v4, v5. split; auto.
    - injection E3 as <-. split; [|reflexivity]. simpl. rewrite map_map.
      apply Forall2_map_r. intros r _. eexists; eexists. split; [apply nan_unit|reflexivity]. }
  destruct S1 as [F1 C1]. destruct S2 as [F2 C2]. destruct S3 as [F3 C3].
  split; [rewrite C3, C2, C1; reflexivity|].
  pose proof (Forall2_compose _ _ _ _ _ (Forall2_compose _ _ _ _ _ F1 F2) F3) as F.
  revert F. apply Forall2_impl'.
  intros a c (b & (b0 & (v1 & v2 & H1 & H2 & ->) & (v3 & H3 & ->)) & (v4 & v5 & H5 & ->)).
  exists v1, v2, v3, v4, v5. repeat split; assumption.
Qed.


Lemma Forall2_Forall_r {A B : Type} (R0 : A -> B -> Prop) (P : B -> Prop)
    (l : list A) (l' : list B) :
  (forall a b, R0 a b -> P b) -> Forall2 R0 l l' -> Forall P l'.
Proof. intros H HF. induction HF; constructor; eauto. Qed.

Lemma Forall2_map_eq {A B C : Type} (R0 : A -> B -> Prop) (f : A -> C) (g : B -> C)
    (l : list A) (l' : list B) :
  (forall a b, R0 a b -> g b = f a) -> Forall2 R0 l l' -> map g l' = map f l.
Proof. intros H HF. induction HF; simpl; f_equal; auto. Qed.

Lemma Forall2_length' {A B : Type} (R0 : A -> B -> Prop) (l : list A) (l' : list B) :
  Forall2 R0 l l' -> List.length l' = List.length l.
Proof. intro HF. induction HF; simpl; congruence. Qed.

Lemma component_cells_unit (lower : text -> text) (str_to_float : text -> option F)
    (cfg : RiskConfig) (df out : frame) :
  add_risk_components lower str_to_float cfg df = Some out ->
  Forall (fun r => forall c, In c SCOLS -> unit_or_nan (r c)) (rows out).
Proof.
  intro H. destruct (add_risk_components_shape _ _ _ _ _ H) as [_ HF].
  revert HF. apply Forall2_Forall_r.
  intros r r' (v1 & v2 & v3 & v4 & v5 & H1 & H2 & H3 & H5 & ->) c Hc.
  simpl in Hc. destruct Hc as [<-|[<-|[<-|[<-|[]]]]]; upd_simpl; assumption.
Qed.

(** [add_risk_components] leaves every finished component ([S_legal],
    [S_fake], [S_price], [S_plan]) of every row either NaN or a finite
    number in [[0,1]]. *)
Theorem component_cells_finite_or_nan (lower : text -> text)
    (str_to_float : text -> option F) (cfg : RiskConfig) (df out : frame)
    (H : add_risk_components lower str_to_float cfg df = Some out) :
  forall r, In r (rows out) -> forall c, In c SCOLS -> unit_or_nan (r c).
Proof.
  intros r Hr. pose proof (component_cells_unit _ _ _ _ _ H) as HF.
  rewrite Forall_forall in HF. exact (HF r Hr).
Qed.

(** [add_risk_components] keeps the rows and the input columns: the result
    has as many rows, its columns are the input columns followed by those of
    [S_legal], [S_plan], [S_fake], [ListingGap], [S_price] not already
    present, and every other column is unchanged. *)
Theorem add_risk_components_keeps_input (lower : text -> text)
    (str_to_float : text -> option F) (cfg : RiskConfig) (df out : frame)
    (H : add_risk_components lower str_to_float cfg df = Some out) :
  List.length (rows out) = List.length (rows df)
  /\ columns out = fold_left add_colname COMPONENT_COLS (columns df)
  /\ (forall c, ~ In c COMPONENT_COLS ->
        map (fun r => r c) (rows out) = map (fun r => r c) (rows df)).
Proof.
  destruct (add_risk_components_shape _ _ _ _ _ H) as [HC HF].
  split; [exact (Forall2_length' _ _ _ HF)|]. split; [exact HC|].
  intros c Hc. revert HF. apply Forall2_map_eq.
  intros r r' (v1 & v2 & v3 & v4 & v5 & _ & _ & _ & _ & ->).
  simpl in Hc. rewrite !upd_other; [reflexivity|..]; intro E; apply Hc; subst; tauto.
Qed.


Lemma in_add_colname (l : list string) (x c : string) :
  In c (add_colname l x) <-> In c l \/ c = x.
Proof.
  unfold add_colname. destruct (in_dec string_dec x l) as [Hx|Hx].
  - split; [tauto|]. intros [H | ->]; assumption.
  - rewrite in_app_iff. simpl. split; intros [H|H]; try tauto.
    + destruct H as [H|[]]. right. symmetry. exact H.
    + right. left. symmetry. exact H.
Qed.

Lemma has_col_true (fr : frame) (c : string) : In c (columns fr) -> has_col fr c = true.
Proof. unfold has_col. destruct (in_dec string_dec c (columns fr)); tauto. Qed.

Lemma has_col_false (fr : frame) (c : string) : ~ In c (columns fr) -> has_col fr c = false.
Proof. unfold has_col. destruct (in_dec string_dec c (columns fr)); tauto. Qed.

Lemma col_step_other (c k : string) (Q : cell -> Prop) (l l' : list row) :
  k <> c -> Forall2 (col_step c Q) l l' -> map (fun r => r k) l' = map (fun r => r k) l.
Proof.
  intro Hk. apply Forall2_map_eq. intros r r' (v & _ & ->). apply upd_other. exact Hk.
Qed.

Lemma mapM_map {A B C : Type} (f : B -> option C) (g : A -> B) (l : list A) :
  mapM f (map g l) = mapM (fun x => f (g x)) l.
Proof. induction l as [|x l IH]; simpl; [reflexivity|]. rewrite IH. reflexivity. Qed.

Lemma mapM_ext_in {A B : Type} (f g : A -> option B) (l : list A) :
  (forall x, In x l -> f x = g x) -> mapM f l = mapM g l.
Proof.
  induction l as [|x l IH]; intro H; simpl; [reflexivity|].
  rewrite (H x (or_introl eq_refl)), IH; [reflexivity|].
  intros y Hy. apply H. right. exact Hy.
Qed.

Lemma mapM_then {A B C : Type} (g : A -> option B) (h : B -> C) (l : list A) (xs : list B) :
  mapM g l = Some xs ->
  mapM (fun r => match g r with Some x => Some (h x) | None => None end) l = Some (map h xs).
Proof.
  revert xs. induction l as [|x l IH]; intros xs H; simpl in *.
  - injection H as <-. reflexivity.
  - destruct (g x) as [y|]; [|discriminate].
    destruct (mapM g l) as [ys|]; [|discriminate].
    injection H as <-. rewrite (IH ys eq_refl). reflexivity.
Qed.

Lemma set_col_opt_values (fr fr' : frame) (c : string) (f : row -> option cell) :
  set_col_opt fr c f = Some fr' ->
  exists vs, mapM f (rows fr) = Some vs /\ map (fun r => r c) (rows fr') = vs.
Proof.
  unfold set_col_opt.
  destruct (mapM _ (rows fr)) as [rs|] eqn:Hm; [|discriminate].
  intro H. injection H as <-. simpl.
  revert rs Hm. induction (rows fr) as [|r l IH]; intros rs Hm; simpl in Hm.
  - injection Hm as <-. exists []. split; reflexivity.
  - destruct (f r) as [v|] eqn:Hr; simpl in Hm; [|discriminate].
    destruct (mapM (fun r0 => option_map (upd r0 c) (f r0)) l) as [rs'|] eqn:Hl;
      [|discriminate].
    injection Hm as <-. destruct (IH rs' eq_refl) as (vs & Hvs & Hmap).
    exists (v :: vs). split; simpl; [rewrite Hr, Hvs; reflexivity|].
    rewrite upd_same, Hmap. reflexivity.
Qed.

Lemma fgt_max1 (x m : F) :
  x <> NaN -> m <> NaN ->
  fgt (if fgt m x then m else x) (Fin 1) = fgt x (Fin 1) || fgt m (Fin 1).
Proof.
  intros Hx Hm.
  destruct x as [a| | |]; destruct m as [b| | |]; try congruence;
    repeat (simpl; destruct (Rlt_dec _ _)); simpl; try reflexivity; exfalso; lra.
Qed.

Lemma fmax_skipna_gt1 (l : list F) :
  fgt (fmax_skipna l) (Fin 1) = existsb (fun y => fgt y (Fin 1)) l.
Proof.
  induction l as [|x l IH]; simpl; [reflexivity|].
  destruct x as [a| | |] eqn:Ex;
    [| exact IH | |];
    (destruct (fmax_skipna l) as [b| | |] eqn:Em;
     [ rewrite <- IH; apply fgt_max1; discriminate
     | simpl in IH; rewrite <- IH, orb_false_r; reflexivity
     | rewrite <- IH; apply fgt_max1; discriminate
     | rewrite <- IH; apply fgt_max1; discriminate ]).
Qed.

(** The text stage of [add_risk_components]. *)
Lemma text_stage (lower : text -> text) (cfg : RiskConfig) (df : frame) :
  let out1 :=
    if has_col df (text_col cfg)
    then set_col (set_col df "S_legal"
           (fun r => CNum (Fin (legal_risk_score lower (r (text_col cfg))))))
           "S_plan" (fun r => CNum (Fin (planning_risk_score lower (r (text_col cfg)))))
    else set_col (set_col df "S_legal" (fun _ => CNum NaN)) "S_plan" (fun _ => CNum NaN) in
  columns out1 = add_colname (add_colname (columns df) "S_legal") "S_plan"
  /\ rows out1 =
     map (fun r =>
            let r1 := upd r "S_legal"
                        (if has_col df (text_col cfg)
                         then CNum (Fin (legal_risk_score lower (r (text_col cfg))))
                         else CNum NaN) in
            upd r1 "S_plan"
              (if has_col df (text_col cfg)
               then CNum (Fin (planning_risk_score lower (r1 (text_col cfg))))
               else CNum NaN))
       (rows df).
Proof.
  intro out1. unfold out1. destruct (has_col df (text_col cfg)); simpl;
    (split; [reflexivity|]); rewrite map_map; reflexivity.
Qed.

(** The price stage of [add_risk_components]. *)
Lemma price_stage (str_to_float : text -> option F) (cfg : RiskConfig) (out2 out3 : frame) :
  (if has_col out2 (unit_price_col cfg) && has_col out2 (gov_price_col cfg) then
     match set_col_opt out2 "ListingGap" (fun r =>
        match cell_to_float str_to_float (r (unit_price_col cfg)) with
        | Some unit =>
            match cell_to_float str_to_float (r (gov_price_col cfg)) with
            | Some gov => Some (CNum (fdiv unit (replace0 gov)))
            | None => None
            end
        | None => None
        end) with
     | Some out =>
         set_col_opt out "S_price" (fun r =>
           match r "ListingGap"%string with
           | CNum ratio => option_map CNum (normalize_log_ratio (Some ratio) (cap_ratio cfg))
           | _ => None
           end)
     | None => None
     end
   else Some (set_col (set_col out2 "ListingGap" (fun _ => CNum NaN)) "S_price"
                (fun _ => CNum NaN))) = Some out3 ->
  Forall2 (fun r r' => exists v4 v5, unit_or_nan v5
                          /\ r' = upd (upd r "ListingGap" v4) "S_price" v5)
    (rows out2) (rows out3)
  /\ columns out3 = add_colname (add_colname (columns out2) "ListingGap") "S_price"
  /\ (has_col out2 (unit_price_col cfg) && has_col out2 (gov_price_col cfg) = false ->
      rows out3 = map (fun r => upd (upd r "ListingGap" (CNum NaN)) "S_price" (CNum NaN))
                    (rows out2)).
Proof.
  intro E3.
  destruct (has_col out2 (unit_price_col cfg) && has_col out2 (gov_price_col cfg)).
  - destruct (set_col_opt out2 "ListingGap" _) as [o|] eqn:E4; [|discriminate].
    destruct (set_col_opt_step _ _ _ _ (fun _ => True) (fun _ _ _ _ => I) E4) as [F4 C4].
    pose proof (fun H => set_col_opt_step _ _ _ _ unit_or_nan H E3) as P.
    lapply P; clear P; [intros [F5 C5]|].
    2:{ intros r v _ Hv. destruct (r "ListingGap"%string) as [ratio| |]; try discriminate.
        destruct (normalize_log_ratio (Some ratio) (cap_ratio cfg)) as [x|] eqn:Hx;
          [|discriminate].
        simpl in Hv. injection Hv as <-. exact (normalize_unit _ _ _ Hx). }
    split; [|split; [rewrite C5, C4; reflexivity|discriminate]].
    pose proof (Forall2_compose _ _ _ _ _ F4 F5) as F.
    revert F. apply Forall2_impl'.
    intros a c (b & (v4 & _ & ->) & (v5 & Hv5 & ->)). exists v4, v5. split; auto.
  - injection E3 as <-. split; [|split; [reflexivity|]].
    + simpl. rewrite map_map.
      apply Forall2_map_r. intros r _. eexists; eexists. split; [apply nan_unit|reflexivity].
    + intros _. simpl. rewrite map_map. reflexivity.
Qed.

Lemma price_stage_other (c : string) (l l' : list row) :
  c <> "ListingGap"%string -> c <> "S_price"%string ->
  Forall2 (fun r r' => exists v4 v5, unit_or_nan v5
                          /\ r' = upd (upd r "ListingGap" v4) "S_price" v5) l l' ->
  map (fun r => r c) l' = map (fun r => r c) l.
Proof.
  intros H1 H2. apply Forall2_map_eq. intros r r' (v4 & v5 & _ & ->).
  rewrite !upd_other by assumption. reflexivity.
Qed.

Ltac arc_stages :=
  unfold add_risk_components;
  match goal with
  | |- context [if has_col ?df (text_col ?cfg) then ?a else ?b] =>
      let out1 := fresh "out1" in
      set (out1 := if has_col df (text_col cfg) then a else b) in *
  end;
  let out2 := fresh "out2" in let E2 := fresh "E2" in
  destruct (if has_col _ (fake_prob_col _) then _ else _) as [out2|] eqn:E2;
    [|discriminate];
  let out3 := fresh "out3" in let E3 := fresh "E3" in
  destruct (if has_col out2 (unit_price_col _) && has_col out2 (gov_price_col _)
            then _ else _) as [out3|] eqn:E3; [|discriminate];
  let H := fresh "H" in
  intro H; injection H as <-.


(** The fake-probability stage of [add_risk_components]. *)
Lemma fake_stage (str_to_float : text -> option F) (cfg : RiskConfig) (out1 out2 : frame) :
  (if has_col out1 (fake_prob_col cfg) then
     match mapM (fun r => cell_to_float str_to_float (r (fake_prob_col cfg))) (rows out1) with
     | Some fake =>
         set_col_opt out1 "S_fake" (fun r =>
           match cell_to_float str_to_float (r (fake_prob_col cfg)) with
           | Some x =>
               Some (CNum (fclip01 (if fgt (fmax_skipna fake) (Fin 1)
                                    then fdiv x (Fin 100) else x)))
           | None => None
           end)
     | None => None
     end
   else Some (set_col out1 "S_fake" (fun _ => CNum NaN))) = Some out2 ->
  Forall2 (col_step "S_fake" unit_or_nan) (rows out1) (rows out2)
  /\ columns out2 = add_colname (columns out1) "S_fake"
  /\ (has_col out1 (fake_prob_col cfg) = false ->
      rows out2 = map (fun r => upd r "S_fake" (CNum NaN)) (rows out1)).
Proof.
  intro E2. destruct (has_col out1 (fake_prob_col cfg)).
  - match type of E2 with context [mapM ?f ?l] => destruct (mapM f l) as [fake|] end;
      [|discriminate].
    pose proof (fun H => set_col_opt_step _ _ _ _ unit_or_nan H E2) as P.
    lapply P; clear P; [intros [F2 C2]|].
    + split; [exact F2|]. split; [exact C2|discriminate].
    + intros r v _ Hv.
      destruct (cell_to_float str_to_float (r (fake_prob_col cfg))); [|discriminate].
      injection Hv as <-. apply fclip01_unit.
  - injection E2 as <-. destruct (set_col_step out1 "S_fake" (fun _ => CNum NaN) unit_or_nan)
      as [F2 C2]; [intros; apply nan_unit|].
    split; [exact F2|]. split; [exact C2|reflexivity].
Qed.

Ltac upd_eval :=
  unfold upd;
  repeat match goal with
         | |- context [string_dec ?a ?b] =>
             destruct (string_dec a b); [try discriminate | try congruence]
         end.

Lemma map_const_Forall2 {A B C : Type} (R0 : A -> B -> Prop) (c : C) (l : list A) (l' : list B) :
  Forall2 R0 l l' -> map (fun _ => c) l' = map (fun _ => c) l.
Proof. apply Forall2_map_eq. reflexivity. Qed.

(** When an input column is missing, [add_risk_components] fills the
    components that depend on it with NaN in every row: no text column gives
    NaN [S_legal] and [S_plan]; no fake-probability column gives NaN [S_fake];
    a missing unit-price or government-price column gives NaN [ListingGap]
    and [S_price].  (The component columns written before a stage count as
    present for that stage.) *)
Theorem add_risk_components_missing_inputs (lower : text -> text)
    (str_to_float : text -> option F) (cfg : RiskConfig) (df out : frame)
    (H : add_risk_components lower str_to_float cfg df = Some out) :
  (~ In (text_col cfg) (columns df) ->
     map (fun r => (r "S_legal"%string, r "S_plan"%string)) (rows out)
     = map (fun _ => (CNum NaN, CNum NaN)) (rows df))
  /\ (~ In (fake_prob_col cfg) (columns df ++ ["S_legal"; "S_plan"]%string) ->
     map (fun r => r "S_fake"%string) (rows out) = map (fun _ => CNum NaN) (rows df))
  /\ (~ In (unit_price_col cfg) (columns df ++ ["S_legal"; "S_plan"; "S_fake"]%string)
      \/ ~ In (gov_price_col cfg) (columns df ++ ["S_legal"; "S_plan"; "S_fake"]%string) ->
     map (fun r => (r "ListingGap"%string, r "S_price"%string)) (rows out)
     = map (fun _ => (CNum NaN, CNum NaN)) (rows df)).
Proof.
  revert H. pose proof (text_stage lower cfg df) as T. cbv zeta in T.
  arc_stages. destruct T as [T1c T1r].
  destruct (fake_stage _ _ _ _ E2) as (F2 & C2 & N2).
  destruct (price_stage _ _ _ _ E3) as (F3 & C3 & N3).
  assert (L21 : forall (C : Type) (c : C),
             map (fun _ => c) (rows out2) = map (fun _ => c) (rows df)).
  { intros C c. rewrite (map_const_Forall2 _ c _ _ F2), T1r, map_map. reflexivity. }
  split; [|split].
  - intro Hn. rewrite (has_col_false _ _ Hn) in T1r.
    transitivity (map (fun r => (r "S_legal"%string, r "S_plan"%string)) (rows out2)).
    { revert F3. apply Forall2_map_eq. intros r r' (v4 & v5 & _ & ->). upd_eval; reflexivity. }
    transitivity (map (fun r => (r "S_legal"%string, r "S_plan"%string)) (rows out1)).
    { revert F2. apply Forall2_map_eq. intros r r' (v & _ & ->). upd_eval; reflexivity. }
    rewrite T1r, map_map. apply map_ext. intro r. upd_eval; reflexivity.
  - intro Hn.
    assert (Hf : has_col out1 (fake_prob_col cfg) = false).
    { apply has_col_false. rewrite T1c, !in_add_colname. intro Hi. apply Hn.
      rewrite in_app_iff. simpl. destruct Hi as [[Hi | Hi] | Hi]; auto. }
    rewrite (price_stage_other "S_fake" _ _ ltac:(discriminate) ltac:(discriminate) F3), (N2 Hf).
    rewrite map_map, T1r, !map_map. apply map_ext. intro r. upd_eval; reflexivity.
  - intro Hn.
    assert (Hp : has_col out2 (unit_price_col cfg) && has_col out2 (gov_price_col cfg) = false).
    { rewrite andb_false_iff.
      destruct Hn as [Hn | Hn]; [left|right]; apply has_col_false;
        rewrite C2, T1c, !in_add_colname; intro Hi; apply Hn;
        rewrite in_app_iff; simpl; destruct Hi as [[[Hi | Hi] | Hi] | Hi]; auto. }
    rewrite (N3 Hp), map_map, <- L21. apply map_ext. intro r. upd_eval; reflexivity.
Qed.

(** When the fake-probability column is present (and is not one of the
    text components), every [S_fake] is the row's value clipped to
    [[0,1]], after dividing every value by 100 as soon as one value of the
    column is greater than 1. *)
Theorem fake_probability_percent_scale (lower : text -> text)
    (str_to_float : text -> option F) (cfg : RiskConfig) (df out : frame)
    (H : add_risk_components lower str_to_float cfg df = Some out)
    (Hin : In (fake_prob_col cfg) (columns df))
    (Hl : fake_prob_col cfg <> "S_legal"%string) (Hp : fake_prob_col cfg <> "S_plan"%string) :
  exists xs,
    mapM (fun r => cell_to_float str_to_float (r (fake_prob_col cfg))) (rows df) = Some xs
    /\ map (fun r => r "S_fake"%string) (rows out)
       = map (fun x => CNum (fclip01 (if existsb (fun y => fgt y (Fin 1)) xs
                                      then fdiv x (Fin 100) else x))) xs.
Proof.
  revert H. pose proof (text_stage lower cfg df) as T. cbv zeta in T.
  arc_stages. destruct T as [T1c T1r].
  assert (Hc1 : has_col out1 (fake_prob_col cfg) = true).
  { apply has_col_true. rewrite T1c, !in_add_colname. left. left. exact Hin. }
  assert (Hm : mapM (fun r => cell_to_float str_to_float (r (fake_prob_col cfg))) (rows out1)
               = mapM (fun r => cell_to_float str_to_float (r (fake_prob_col cfg))) (rows df)).
  { rewrite T1r, mapM_map. apply mapM_ext_in. intros r _.
    rewrite !upd_other by assumption. reflexivity. }
  rewrite Hc1 in E2.
  destruct (mapM (fun r => cell_to_float str_to_float (r (fake_prob_col cfg))) (rows df))
    as [xs|] eqn:Hxs.
  2:{ exfalso. match type of E2 with context [mapM ?f ?l] =>
        assert (Hn : mapM f l = None) by exact Hm;
        rewrite Hn in E2 end. discriminate. }
  exists xs. split; [reflexivity|].
  match type of E2 with context [mapM ?f ?l] =>
    assert (Hs : mapM f l = Some xs) by exact Hm;
    rewrite Hs in E2 end.
  destruct (set_col_opt_values _ _ _ _ E2) as (vs & Hvs & Hmap).
  pose proof (mapM_then _ (fun x => CNum (fclip01 (if fgt (fmax_skipna xs) (Fin 1)
                                                    then fdiv x (Fin 100) else x)))
                _ _ Hm) as Hth.
  assert (Hv : Some vs = Some (map (fun x => CNum (fclip01 (if fgt (fmax_skipna xs) (Fin 1)
                                                     then fdiv x (Fin 100) else x))) xs)).
  { rewrite <- Hvs, <- Hth. reflexivity. }
  injection Hv as Hv.
  destruct (price_stage _ _ _ _ E3) as (F3 & _ & _).
  rewrite (price_stage_other "S_fake" _ _ ltac:(discriminate) ltac:(discriminate) F3), Hmap, Hv.
  rewrite fmax_skipna_gt1. reflexivity.
Qed.


Lemma fake_probability_percent_scale_witness :
  let fr := {| columns := [fake_prob_col default_config];
               rows := [fun c => if string_dec c (fake_prob_col default_config)
                                 then CNum (Fin 50) else CNone;
                        fun c => if string_dec c (fake_prob_col default_config)
                                 then CNum (Fin (3/10)) else CNone] |} in
  exists out,
    add_risk_components (fun t => t) (fun _ => None) default_config fr = Some out
    /\ exists xs,
         mapM (fun r => cell_to_float (fun _ => None) (r (fake_prob_col default_config)))
           (rows fr) = Some xs
         /\ map (fun r => r "S_fake"%string) (rows out)
            = map (fun x => CNum (fclip01 (if existsb (fun y => fgt y (Fin 1)) xs
                                           then fdiv x (Fin 100) else x))) xs.
Proof.
  intro fr.
  destruct (add_risk_components (fun t => t) (fun _ => None) default_config fr)
    as [out|] eqn:Hc.
  - exists out. split; [reflexivity|].
    apply (fake_probability_percent_scale _ _ _ _ _ Hc).
    + simpl. left. reflexivity.
    + discriminate.
    + discriminate.
  - exfalso. simpl in Hc. discriminate.
Defined.

Lemma Forall2_in_r {A B : Type} (R0 : A -> B -> Prop) (l : list A) (l' : list B) (y : B) :
  Forall2 R0 l l' -> In y l' -> exists x, In x l /\ R0 x y.
Proof.
  intro HF. induction HF as [|a b l l' Hab HF IH]; intro Hy; [destruct Hy|].
  destruct Hy as [<-|Hy]; [exists a; split; [left; reflexivity|exact Hab]|].
  destruct (IH Hy) as (x & Hx & Hxy). exists x. split; [right; exact Hx|exact Hxy].
Qed.

Lemma Forall2_in_l {A B : Type} (R0 : A -> B -> Prop) (l : list A) (l' : list B) (x : A) :
  Forall2 R0 l l' -> In x l -> exists y, In y l' /\ R0 x y.
Proof.
  intro HF. induction HF as [|a b l l' Hab HF IH]; intro Hx; [destruct Hx|].
  destruct Hx as [<-|Hx]; [exists b; split; [left; reflexivity|exact Hab]|].
  destruct (IH Hx) as (y & Hy & Hxy). exists y. split; [right; exact Hy|exact Hxy].
Qed.

(** The rows of [compute_risk_score]'s result correspond one to one to
    those [b] of [add_risk_components]' result: the Risk Score is
    [score_of_row ws b], the Level is [_level] of it, and the quantiles are
    those of the scores of those rows. *)
Lemma compute_risk_score_cells (lower : text -> text) (str_to_float : text -> option F)
    (cfg : RiskConfig) (method : text) (weights : option (list (string * R)))
    (df out : frame) (w : list (string * R)) :
  compute_risk_score lower str_to_float cfg method weights df = Some (out, w) ->
  exists base ws,
    add_risk_components lower str_to_float cfg df = Some base
    /\ mapM (fun c => lookup c w) SCOLS = Some ws
    /\ let ss := map (score_of_row ws) (rows base) in
       Forall2 (fun b r =>
           r "Risk Score"%string = CNum (Fin (score_of_row ws b))
           /\ r "Risk Level"%string
              = CStr (utf8 (_level (quantile ss 1 3) (quantile ss 2 3) (Fin (score_of_row ws b))))
           /\ r "Risk_Q33"%string = CNum (quantile ss 1 3)
           /\ r "Risk_Q67"%string = CNum (quantile ss 2 3))
         (rows base) (rows out).
Proof.
  intro H.
  destruct (compute_risk_score_rows _ _ _ _ _ _ _ _ H) as (base & ws & Hb & Hws & Hrows).
  exists base, ws. split; [exact Hb|]. split; [exact Hws|].
  cbv zeta in Hrows.
  set (r1 := map (fun r => upd r "Risk Score" (CNum (Fin (score_of_row ws r)))) (rows base))
    in *.
  assert (Hss : map (score_of_row ws) r1 = map (score_of_row ws) (rows base)).
  { unfold r1. rewrite map_map. apply map_ext. intro r.
    apply score_of_row_ext. intros c Hc. unfold SCOLS in Hc.
    simpl in Hc. repeat destruct Hc as [<-|Hc]; try contradiction;
    upd_simpl; reflexivity. }
  rewrite Hss in Hrows. rewrite Hrows. cbv zeta.
  unfold r1. rewrite !map_map. apply Forall2_map_r. intros b _.
  split; [|split; [|split]]; upd_simpl; repeat rewrite upd_same; reflexivity.
Qed.




Lemma insert_perm (x : R) (l : list R) : Permutation (insert x l) (x :: l).
Proof.
  induction l as [|y l IH]; simpl; [reflexivity|].
  destruct (Rle_dec x y); [reflexivity|].
  transitivity (y :: x :: l); [constructor; exact IH|constructor].
Qed.

Lemma sort_perm (l : list R) : Permutation (sort l) l.
Proof.
  induction l as [|x l IH]; simpl; [reflexivity|].
  rewrite insert_perm. constructor. exact IH.
Qed.

Lemma insert_sorted (x : R) (l : list R) :
  StronglySorted Rle l -> StronglySorted Rle (insert x l).
Proof.
  induction l as [|y l IH]; intro Hs; simpl.
  - constructor; constructor.
  - inversion Hs as [|y' l' Hl Hy]; subst.
    destruct (Rle_dec x y) as [Hxy|Hxy].
    + constructor; [exact Hs|]. constructor; [exact Hxy|].
      rewrite Forall_forall in *. intros z Hz. specialize (Hy z Hz). lra.
    + constructor; [apply IH; exact Hl|].
      rewrite Forall_forall in *. intros z Hz.
      apply (Permutation_in _ (insert_perm x l)) in Hz. destruct Hz as [<-|Hz]; [lra|].
      apply Hy. exact Hz.
Qed.

Lemma sort_sorted (l : list R) : StronglySorted Rle (sort l).
Proof.
  induction l as [|x l IH]; simpl; [constructor|]. apply insert_sorted. exact IH.
Qed.

Lemma sorted_nth (s : list R) (i j : nat) :
  StronglySorted Rle s -> (i <= j)%nat -> (j < List.length s)%nat -> nth i s 0 <= nth j s 0.
Proof.
  revert i j. induction s as [|y s IH]; intros i j Hs Hij Hj; simpl in Hj; [lia|].
  inversion Hs as [|y' s' Hs' Hy]; subst.
  destruct i as [|i]; destruct j as [|j]; simpl; try lra; try lia.
  - rewrite Forall_forall in Hy. apply Hy. apply nth_In. lia.
  - apply IH; [exact Hs'|lia|lia].
Qed.

Lemma interp_between (a b t : R) : a <= b -> 0 <= t <= 1 -> a <= a + (b - a) * t <= b.
Proof. intros Hab Ht. split; nra. Qed.

(** The 1/3 and 2/3 quantiles of a non-empty list are finite, ordered, and
    lie between its least and its greatest element. *)
Lemma quantile_33_67 (xs : list R) :
  xs <> [] ->
  exists v1 v2 lo hi,
    quantile xs 1 3 = Fin v1 /\ quantile xs 2 3 = Fin v2
    /\ In lo xs /\ In hi xs /\ lo <= v1 <= v2 /\ v2 <= hi.
Proof.
  intro Hne.
  pose proof (sort_perm xs) as Hp. pose proof (sort_sorted xs) as Hso.
  unfold quantile.
  destruct (sort xs) as [|y s'] eqn:Hs.
  { apply Permutation_nil in Hp. contradiction. }
  set (s := y :: s') in *.
  assert (Hlen : List.length s = S (List.length s')) by reflexivity.
  rewrite Hlen. set (m := List.length s'). replace (S m - 1)%nat with m by lia.
  rewrite Nat.mul_1_r.
  set (i1 := (m / 3)%nat). set (i2 := (m * 2 / 3)%nat).
  set (m1 := (m mod 3)%nat). set (m2 := (m * 2 mod 3)%nat).
  pose proof (Nat.div_mod m 3 ltac:(lia)) as D1.
  pose proof (Nat.div_mod (m * 2) 3 ltac:(lia)) as D2.
  pose proof (Nat.mod_upper_bound m 3 ltac:(lia)) as U1.
  pose proof (Nat.mod_upper_bound (m * 2) 3 ltac:(lia)) as U2.
  fold i1 i2 m1 m2 in D1, D2, U1, U2.
  assert (HI3 : INR 3 = 3) by (simpl; lra).
  rewrite HI3.
  assert (Hnth : forall i j, (i <= j)%nat -> (j <= m)%nat -> nth i s 0 <= nth j s 0).
  { intros i j Hij Hjm. apply sorted_nth; [exact Hso|exact Hij|]. rewrite Hlen. fold m. lia. }
  assert (Hin : forall i, (i <= m)%nat -> In (nth i s 0) xs).
  { intros i Him. apply (Permutation_in _ Hp). apply nth_In. rewrite Hlen. fold m. lia. }
  exists (nth i1 s 0 + (nth (S i1) s 0 - nth i1 s 0) * (INR m1 / 3)),
         (nth i2 s 0 + (nth (S i2) s 0 - nth i2 s 0) * (INR m2 / 3)),
         (nth 0 s 0), (nth m s 0).
  split; [reflexivity|]. split; [reflexivity|].
  split; [apply Hin; lia|]. split; [apply Hin; lia|].
  destruct (Nat.eq_dec m 0) as [Hm0|Hm0].
  - assert (i1 = 0)%nat by lia. assert (i2 = 0)%nat by lia.
    assert (m1 = 0)%nat by lia. assert (m2 = 0)%nat by lia.
    rewrite H, H0, H1, H2, Hm0. simpl INR. lra.
  - assert (Hi1 : (S i1 <= m)%nat) by lia.
    assert (Hi2 : (S i2 <= m)%nat) by lia.
    assert (Hi12 : (i1 <= i2)%nat) by lia.
    assert (T1 : 0 <= INR m1 / 3 <= 1).
    { pose proof (pos_INR m1). assert (INR m1 <= 2) by (replace 2 with (INR 2) by (simpl; lra);
        apply le_INR; lia). split; lra. }
    assert (T2 : 0 <= INR m2 / 3 <= 1).
    { pose proof (pos_INR m2). assert (INR m2 <= 2) by (replace 2 with (INR 2) by (simpl; lra);
        apply le_INR; lia). split; lra. }
    pose proof (Hnth i1 (S i1) ltac:(lia) Hi1) as A1.
    pose proof (Hnth i2 (S i2) ltac:(lia) Hi2) as A2.
    pose proof (interp_between _ _ _ A1 T1) as B1.
    pose proof (interp_between _ _ _ A2 T2) as B2.
    pose proof (Hnth 0%nat i1 ltac:(lia) ltac:(lia)) as L1.
    pose proof (Hnth (S i2) m Hi2 ltac:(lia)) as L2.
    split; [split; [lra|]|lra].
    destruct (Nat.eq_dec i1 i2) as [E|E].
    + rewrite <- E. assert (Hm12 : (m1 <= m2)%nat) by lia.
      apply le_INR in Hm12. rewrite <- E in A2. nra.
    + pose proof (Hnth (S i1) i2 ltac:(lia) ltac:(lia)). lra.
Qed.

(** For a non-empty input and without supplied weights (method "equal"
    or CRITIC), the stored quantiles [Risk_Q33] and [Risk_Q67] are the same
    finite numbers in every row, with [Q33 <= Q67]; some row has a score at
    most [Q33] and the level "Low", and some row has a score at least
    [Q67]. *)
Theorem risk_quantiles_ordered (lower : text -> text) (str_to_float : text -> option F)
    (cfg : RiskConfig) (method : text)
    (df out : frame) (w : list (string * R))
    (H : compute_risk_score lower str_to_float cfg method None df = Some (out, w))
    (Hne : rows df <> []) :
  exists q33 q67,
    q33 <= q67
    /\ (forall r, In r (rows out) ->
          r "Risk_Q33"%string = CNum (Fin q33) /\ r "Risk_Q67"%string = CNum (Fin q67))
    /\ (exists r s, In r (rows out) /\ r "Risk Score"%string = CNum (Fin s) /\ s <= q33
                    /\ r "Risk Level"%string = CStr (utf8 "Low"))
    /\ (exists r s, In r (rows out) /\ r "Risk Score"%string = CNum (Fin s) /\ q67 <= s).
Proof.
  destruct (compute_risk_score_cells _ _ _ _ _ _ _ _ H) as (base & ws & Hb & _ & Hc).
  cbv zeta in Hc. set (ss := map (score_of_row ws) (rows base)) in *.
  assert (Hbl : List.length (rows base) = List.length (rows df)).
  { destruct (add_risk_components_shape _ _ _ _ _ Hb) as [_ HF].
    exact (Forall2_length' _ _ _ HF). }
  assert (Hssne : ss <> []).
  { unfold ss. intro E. apply Hne. apply length_zero_iff_nil.
    rewrite <- Hbl. rewrite <- (length_map (score_of_row ws)). rewrite E. reflexivity. }
  destruct (quantile_33_67 ss Hssne) as (v1 & v2 & lo & hi & Q1 & Q2 & Hlo & Hhi & Hv & Hv2).
  rewrite Q1, Q2 in Hc.
  assert (Hrow : forall x, In x ss -> exists r, In r (rows out)
                   /\ r "Risk Score"%string = CNum (Fin x)
                   /\ r "Risk Level"%string = CStr (utf8 (_level (Fin v1) (Fin v2) (Fin x)))).
  { intros x Hx. unfold ss in Hx. apply in_map_iff in Hx as (b & <- & Hb').
    destruct (Forall2_in_l _ _ _ _ Hc Hb') as (r & Hr & Hs & Hl & _).
    exists r. split; [exact Hr|]. split; assumption. }
  exists v1, v2. split; [lra|]. split.
  { intros r Hr. destruct (Forall2_in_r _ _ _ _ Hc Hr) as (b & _ & _ & _ & H33 & H67).
    split; assumption. }
  split.
  - destruct (Hrow lo Hlo) as (r & Hr & Hs & Hl). exists r, lo.
    split; [exact Hr|]. split; [exact Hs|]. split; [lra|].
    rewrite Hl. unfold _level. cbn [isfinite negb]. unfold fle.
    destruct (Rle_dec lo v1); [reflexivity|lra].
  - destruct (Hrow hi Hhi) as (r & Hr & Hs & _). exists r, hi. auto.
Qed.


Lemma normalize_log_ratio_small_cap_witness :
  1 / 1000000000 <= 1 / 10 /\ 1 / 10 < 1
  /\ normalize_log_ratio (Some (Fin 2)) (1 / 10) = Some (Fin 0).
Proof.
  split; [lra|]. split; [lra|].
  exact (proj1 (normalize_log_ratio_small_cap (1 / 10) ltac:(lra) ltac:(lra)) 2 ltac:(lra)).
Defined.

Lemma critic_weights_single_column_witness :
  let fr := {| columns := ["a"%string]; rows := [fun _ => CNum (Fin 1)] |} in
  exists w, critic_weights (fun _ => None) fr ["a"%string] = Some w /\ w = [("a"%string, 1)].
Proof.
  intro fr.
  destruct (critic_weights (fun _ => None) fr ["a"%string]) as [w|] eqn:Hw.
  - exists w. split; [reflexivity|].
    exact (critic_weights_single_column (fun _ => None) fr "a"%string w Hw).
  - exfalso. unfold critic_weights in Hw. simpl in Hw.
    destruct (Rle_dec _ 0); discriminate.
Defined.

Lemma add_risk_components_missing_inputs_witness :
  exists out,
    add_risk_components (fun t => t) (fun _ => None) default_config one_row_frame = Some out
    /\ map (fun r => (r "S_legal"%string, r "S_plan"%string)) (rows out)
       = map (fun _ => (CNum NaN, CNum NaN)) (rows one_row_frame).
Proof.
  destruct (add_risk_components (fun t => t) (fun _ => None) default_config one_row_frame)
    as [out|] eqn:Hc.
  - exists out. split; [reflexivity|].
    apply (proj1 (add_risk_components_missing_inputs _ _ _ _ _ Hc)).
    simpl. tauto.
  - exfalso. simpl in Hc. discriminate.
Defined.

Lemma component_cells_finite_or_nan_witness :
  exists out,
    add_risk_components (fun t => t) (fun _ => None) default_config sample_frame = Some out
    /\ (forall r, In r (rows out) -> forall c, In c SCOLS -> unit_or_nan (r c)).
Proof.
  destruct (add_risk_components (fun t => t) (fun _ => None) default_config sample_frame)
    as [out|] eqn:Hc.
  - exists out. split; [reflexivity|].
    exact (component_cells_finite_or_nan _ _ _ _ _ Hc).
  - exfalso. unfold sample_frame in Hc. simpl in Hc. discriminate.
Defined.

Lemma add_risk_components_keeps_input_witness :
  exists out,
    add_risk_components (fun t => t) (fun _ => None) default_config sample_frame = Some out
    /\ ~ In "id"%string COMPONENT_COLS
    /\ List.length (rows out) = 3%nat
    /\ columns out = fold_left add_colname COMPONENT_COLS (columns sample_frame)
    /\ map (fun r => r "id"%string) (rows out) = [CNum (Fin 1); CNum (Fin 2); CNum (Fin 3)].
Proof.
  assert (Hid : ~ In "id"%string COMPONENT_COLS).
  { simpl. intros [E|[E|[E|[E|[E|[]]]]]]; discriminate. }
  destruct (add_risk_components (fun t => t) (fun _ => None) default_config sample_frame)
    as [out|] eqn:Hc.
  - exists out. split; [reflexivity|]. split; [exact Hid|].
    destruct (add_risk_components_keeps_input _ _ _ _ _ Hc) as (H1 & H2 & H3).
    split; [exact H1|]. split; [exact H2|].
    rewrite (H3 _ Hid). reflexivity.
  - exfalso. unfold sample_frame in Hc. simpl in Hc. discriminate.
Defined.


Lemma risk_quantiles_ordered_witness :
  exists out w,
    compute_risk_score (fun t => t) (fun _ => None) default_config (utf8 "equal") None
      sample_frame = Some (out, w)
    /\ rows sample_frame <> []
    /\ exists q33 q67, q33 <= q67
         /\ (forall r, In r (rows out) ->
               r "Risk_Q33"%string = CNum (Fin q33) /\ r "Risk_Q67"%string = CNum (Fin q67))
         /\ (exists r s, In r (rows out) /\ r "Risk Score"%string = CNum (Fin s) /\ s <= q33
                         /\ r "Risk Level"%string = CStr (utf8 "Low"))
         /\ (exists r s, In r (rows out) /\ r "Risk Score"%string = CNum (Fin s) /\ q67 <= s).
Proof.
  destruct (compute_risk_score (fun t => t) (fun _ => None) default_config (utf8 "equal") None
              sample_frame) as [[out w]|] eqn:Hc.
  - assert (Hne : rows sample_frame <> []) by (unfold sample_frame; simpl; discriminate).
    exists out, w. split; [reflexivity|]. split; [exact Hne|].
    exact (risk_quantiles_ordered _ _ _ _ _ _ _ Hc Hne).
  - exfalso. unfold sample_frame in Hc. simpl in Hc. discriminate.
Defined.

End ScoringFacts.
